(** * makeepub: source providers, heading detection and chapter segmentation

    A shallow embedding of [main.go].  Go strings are byte sequences and are
    modelled as [list ascii]; Go [int] values that are only compared are [Z];
    a Go [error] is a value of type [error], [nil] being [None]. *)

From Stdlib Require Import Ascii String List ZArith Lia Bool.
Import ListNotations.

Local Open Scope char_scope.
Local Open Scope list_scope.

(** A Go string literal. *)
Definition str (s : string) : list ascii := list_ascii_of_string s.

Definition bytes_eqb (a b : list ascii) : bool :=
  if list_eq_dec ascii_dec a b then true else false.

(** ** The fragment of Go's [regexp] used by [reHeader] and [reBody]

    Both patterns are anchored at both ends ([^] ... [$]), contain no
    alternation, repeat single character classes only, and their capture
    groups are not nested.  A pattern is therefore a sequence of
    instructions, matched by backtracking with the greedy choice tried
    first, which is the leftmost-first match Go's engine reports. *)
Module Regexp.

Inductive inst : Type :=
| Lit (c : ascii)              (* a literal byte *)
| Cls (p : ascii -> bool)      (* a character class, one byte *)
| Star (p : ascii -> bool)     (* a starred class, greedy *)
| GroupOpen                    (* an opening parenthesis *)
| GroupClose.                  (* a closing parenthesis *)

Definition prog := list inst.

(** [star p k s]: consume as many bytes in [p] as possible, then continue
    with [k]; on failure give one byte back and retry. *)
Fixpoint star {R : Type} (p : ascii -> bool) (k : list ascii -> option R)
         (s : list ascii) : option R :=
  match s with
  | x :: s' =>
      if p x
      then match star p k s' with
           | Some r => Some r
           | None => k s
           end
      else k s
  | [] => k []
  end.

(** [run re s opens caps]: match all of [s] against [re].  [opens] holds,
    for each group opened and not yet closed, the input that remained when
    it was opened; [caps] holds the text of the groups closed so far. *)
Fixpoint run (re : prog) (s : list ascii) (opens : list (list ascii))
         (caps : list (list ascii)) : option (list (list ascii)) :=
  match re with
  | [] => match s with [] => Some caps | _ :: _ => None end
  | Lit c :: re' =>
      match s with
      | x :: s' => if Ascii.eqb x c then run re' s' opens caps else None
      | [] => None
      end
  | Cls p :: re' =>
      match s with
      | x :: s' => if p x then run re' s' opens caps else None
      | [] => None
      end
  | Star p :: re' => star p (fun s' => run re' s' opens caps) s
  | GroupOpen :: re' => run re' s (s :: opens) caps
  | GroupClose :: re' =>
      match opens with
      | s0 :: os =>
          run re' s os (caps ++ [firstn (length s0 - length s) s0])
      | [] => None
      end
  end.

(** [re.MatchString(l)] *)
Definition MatchString (re : prog) (l : list ascii) : bool :=
  match run re l [] [] with Some _ => true | None => false end.

(** [re.FindStringSubmatch(l)]: [nil] or the whole match followed by the
    groups; the whole match of an anchored pattern is the line itself. *)
Definition FindStringSubmatch (re : prog) (l : list ascii)
  : option (list (list ascii)) :=
  match run re l [] [] with
  | Some caps => Some (l :: caps)
  | None => None
  end.

End Regexp.
Import Regexp.

Definition tab : ascii := "009".

(** [[ \t]] *)
Definition is_blank (c : ascii) : bool := Ascii.eqb c " " || Ascii.eqb c tab.
(** [[hH]] *)
Definition is_hH (c : ascii) : bool := Ascii.eqb c "h" || Ascii.eqb c "H".
(** [[1-6]] *)
Definition is_1to6 (c : ascii) : bool :=
  (49 <=? N_of_ascii c)%N && (N_of_ascii c <=? 54)%N.
(** [[^>]] and [[^<]] *)
Definition not_gt (c : ascii) : bool := negb (Ascii.eqb c ">").
Definition not_lt (c : ascii) : bool := negb (Ascii.eqb c "<").
(** One letter under [(?i)]: none of b, o, d, y has a fold outside ASCII. *)
Definition fold (lo up : ascii) (c : ascii) : bool :=
  Ascii.eqb c lo || Ascii.eqb c up.

(** [reHeader] is the pattern
      ^[ \t]*<[hH]([1-6])[^>]*>([^<]* )</[hH]([1-6])>[ \t]*$
    (written here with a blank before the second closing parenthesis,
    which would otherwise end this comment). *)
Definition reHeader : prog :=
  [ Star is_blank; Lit "<"; Cls is_hH; GroupOpen; Cls is_1to6; GroupClose;
    Star not_gt; Lit ">"; GroupOpen; Star not_lt; GroupClose;
    Lit "<"; Lit "/"; Cls is_hH; GroupOpen; Cls is_1to6; GroupClose; Lit ">";
    Star is_blank ].

(** [reBody] is the pattern  ^[ \t]*<(?i)body(?-i)[^>]*>$  *)
Definition reBody : prog :=
  [ Star is_blank; Lit "<";
    Cls (fold "b" "B"); Cls (fold "o" "O"); Cls (fold "d" "D");
    Cls (fold "y" "Y");
    Star not_gt; Lit ">" ].

(** Subtraction of two Go [byte]s, widened to [int]. *)
Definition byte_sub (a b : ascii) : Z :=
  ((Z.of_N (N_of_ascii a) - Z.of_N (N_of_ascii b)) mod 256)%Z.

(** [checkNewChapter]: the named results start at their zero values and
    are assigned only when the pattern matches and [m[1] == m[3]]. *)
Definition checkNewChapter (l : list ascii) : Z * list ascii :=
  match FindStringSubmatch reHeader l with
  | Some [_; m1; m2; m3] =>
      if bytes_eqb m1 m3
      then (byte_sub (hd "000" m1) "0", m2)
      else (0%Z, [])
  | _ => (0%Z, [])
  end.

(** ** Errors, readers and the [FileProvider] interface *)

Inductive error : Type :=
| EOF                          (* io.EOF *)
| ErrNotExist                  (* os.ErrNotExist *)
| ErrOther (msg : string).     (* any other error value *)

Inductive result (A : Type) : Type :=
| Ok (a : A)
| Err (e : error).
Arguments Ok {A} a.
Arguments Err {A} e.

Definition nl : ascii := "010".

(** An opened [io.ReadCloser], by what its two consumers observe:
    [ReadLines] is the sequence of lines that successive calls of
    [bufio.Reader.ReadLine] deliver before [io.EOF], line ends removed (a
    line longer than the reader's buffer arrives in several pieces, each
    of them a line here; read errors other than the end of input are left
    out); [ReadAll] is the outcome of [ioutil.ReadAll]. *)
Record ReadCloser : Type := {
  ReadLines : list (list ascii);
  ReadAll : result (list ascii)
}.

(** [type TraverseFunc func(path string) error]; the closure passed by
    [addFilesToBook] updates the book, so the callback threads a state. *)
Definition TraverseFunc (S : Type) : Type :=
  list ascii -> S -> S * option error.

Record FileProvider : Type := {
  OpenFile : list ascii -> result ReadCloser;
  Traverse : forall S : Type, TraverseFunc S -> S -> S * option error
}.

(** Package [strings] of Go's library.  [strings.ToLower] follows the
    Unicode case tables, which are no part of the program: the program is
    modelled over any such function, the method [ToLower] below. *)
Class Strings : Type := { ToLower : list ascii -> list ascii }.

(** What [strings.ToLower] does on ASCII text: A-Z are mapped to a-z and
    every other byte is kept.  It stands for [strings.ToLower] where a
    property is evaluated on names made of ASCII bytes. *)
Definition lower_byte (c : ascii) : ascii :=
  let n := N_of_ascii c in
  if ((65 <=? n) && (n <=? 90))%N then ascii_of_N (n + 32) else c.

Definition ascii_ToLower (s : list ascii) : list ascii := map lower_byte s.

(** *** FolderSource

    The operating system is the environment of a [FolderSource]:
    [os.Open], the items [filepath.Walk] hands to its callback, and the
    path functions [filepath.Join] and [filepath.Rel]. *)
Record WalkItem : Type := {
  wi_path : list ascii;
  wi_isDir : bool;
  wi_err : option error
}.

Record OS : Type := {
  os_Open : list ascii -> result ReadCloser;
  os_Walk : list ascii -> list WalkItem;
  filepath_Join : list ascii -> list ascii -> list ascii;
  filepath_Rel : list ascii -> list ascii -> list ascii
}.

Record FolderSource : Type := { base : list ascii }.

Definition NewFolderSource (b : list ascii) : FolderSource := {| base := b |}.

Definition FolderSource_OpenFile (os : OS) (fs : FolderSource)
           (path : list ascii) : result ReadCloser :=
  os_Open os (filepath_Join os (base fs) path).

(** [filepath.Walk] stops at the first error its callback returns. *)
Fixpoint walk_items {S : Type} (os : OS) (fs : FolderSource)
         (traverseFn : TraverseFunc S) (items : list WalkItem) (st : S)
  : S * option error :=
  match items with
  | [] => (st, None)
  | it :: items' =>
      match wi_err it with
      | Some e => (st, Some e)
      | None =>
          if wi_isDir it then walk_items os fs traverseFn items' st
          else
            match traverseFn (filepath_Rel os (base fs) (wi_path it)) st with
            | (st', Some e) => (st', Some e)
            | (st', None) => walk_items os fs traverseFn items' st'
            end
      end
  end.

Definition FolderSource_Traverse (os : OS) (fs : FolderSource) (S : Type)
           (traverseFn : TraverseFunc S) (st : S) : S * option error :=
  walk_items os fs traverseFn (os_Walk os (base fs)) st.

Definition FolderProvider (os : OS) (fs : FolderSource) : FileProvider :=
  {| OpenFile := FolderSource_OpenFile os fs;
     Traverse := FolderSource_Traverse os fs |}.

(** *** ZipSource *)

(** A [zip.File]: its [Name] and the outcome of its [Open()]. *)
Record zipFile : Type := {
  Name : list ascii;
  Open : result ReadCloser
}.

(** [zs.rc.File], in central-directory order. *)
Record ZipSource : Type := { File : list zipFile }.

Fixpoint ZipSource_find {strs : Strings} (files : list zipFile)
         (path : list ascii)
  : result ReadCloser :=
  match files with
  | [] => Err ErrNotExist
  | f :: files' =>
      if bytes_eqb (ToLower (Name f)) path then Open f
      else ZipSource_find files' path
  end.

Definition ZipSource_OpenFile {strs : Strings} (zs : ZipSource)
           (path : list ascii)
  : result ReadCloser :=
  ZipSource_find (File zs) path.

Fixpoint ZipSource_each {S : Type} (traverseFn : TraverseFunc S)
         (files : list zipFile) (st : S) : S * option error :=
  match files with
  | [] => (st, None)
  | f :: files' =>
      match traverseFn (Name f) st with
      | (st', Some e) => (st', Some e)
      | (st', None) => ZipSource_each traverseFn files' st'
      end
  end.

Definition ZipSource_Traverse (zs : ZipSource) (S : Type)
           (traverseFn : TraverseFunc S) (st : S) : S * option error :=
  ZipSource_each traverseFn (File zs) st.

Definition ZipProvider {strs : Strings} (zs : ZipSource) : FileProvider :=
  {| OpenFile := ZipSource_OpenFile zs;
     Traverse := ZipSource_Traverse zs |}.

(** ** The container

    Type [Epub] and its methods are declared outside [main.go].  A book is
    represented by the history of the method calls made on it, oldest
    first; what a fallible method answers is the parameter [respond] of
    the section below, a function of the history and of the call, so that
    every deterministic container is covered. *)

Inductive call : Type :=
| SetNameCall (name : list ascii)
| SetAuthorCall (author : list ascii)
| SetCoverPageCall (name data : list ascii)
| AddFileCall (path data : list ascii)
| AddChapterCall (title data : list ascii) (depth : Z)
| SaveCall (path : list ascii).

Definition Epub : Type := list call.

(** A chapter as handed to [AddChapter]. *)
Record Chapter : Type := {
  ch_title : list ascii;
  ch_depth : Z;
  ch_content : list ascii
}.

(** The chapters registered on a book, in order. *)
Fixpoint chapters (book : Epub) : list Chapter :=
  match book with
  | [] => []
  | AddChapterCall t d n :: book' =>
      {| ch_title := t; ch_depth := n; ch_content := d |} :: chapters book'
  | _ :: book' => chapters book'
  end.

(** The supporting files registered on a book, in order. *)
Fixpoint assets (book : Epub) : list (list ascii * list ascii) :=
  match book with
  | [] => []
  | AddFileCall p d :: book' => (p, d) :: assets book'
  | _ :: book' => assets book'
  end.

(** The closing tags written before a chapter is registered mid-stream:
    a tab, the closing body tag, a newline, the closing html tag. *)
Definition footer : list ascii :=
  tab :: str "</body>" ++ nl :: str "</html>".

Definition is_reserved (p : list ascii) : bool :=
  bytes_eqb p (str "book.ini") || bytes_eqb p (str "book.html")
  || bytes_eqb p (str "cover.html").

Section Container.

Context {strs : Strings}.
Variable respond : Epub -> call -> option error.

Definition SetName (name : list ascii) (book : Epub) : Epub :=
  book ++ [SetNameCall name].

Definition SetAuthor (author : list ascii) (book : Epub) : Epub :=
  book ++ [SetAuthorCall author].

Definition SetCoverPage (name data : list ascii) (book : Epub) : Epub :=
  book ++ [SetCoverPageCall name data].

Definition AddFile (path data : list ascii) (book : Epub)
  : Epub * option error :=
  (book ++ [AddFileCall path data], respond book (AddFileCall path data)).

(** [data] is the content of the buffer at the time of the call. *)
Definition AddChapter (title data : list ascii) (depth : Z) (book : Epub)
  : Epub * option error :=
  (book ++ [AddChapterCall title data depth],
   respond book (AddChapterCall title data depth)).

Definition Save (path : list ascii) (book : Epub) : Epub * option error :=
  (book ++ [SaveCall path], respond book (SaveCall path)).

(** [setCoverPage].  The [e] tested by the [if] statement is declared by
    that statement; the [e] returned on the last line is the one of
    [OpenFile], which is [nil] there. *)
Definition setCoverPage (book : Epub) (fp : FileProvider)
  : Epub * option error :=
  match OpenFile fp (str "cover.html") with
  | Err e => (book, Some e)
  | Ok f =>
      let book' :=
        match ReadAll f with
        | Ok data => SetCoverPage (str "cover.html") data book
        | Err _ => book
        end in
      (book', None)
  end.

(** The closure [traverse] of [addFilesToBook]. *)
Definition addFiles_traverse (fp : FileProvider) : TraverseFunc Epub :=
  fun path book =>
    let p := ToLower path in
    if is_reserved p then (book, None)
    else
      match OpenFile fp path with
      | Err e => (book, Some e)
      | Ok rc =>
          match ReadAll rc with
          | Err e => (book, Some e)
          | Ok data => AddFile path data book
          end
      end.

Definition addFilesToBook (book : Epub) (fp : FileProvider)
  : Epub * option error :=
  Traverse fp Epub (addFiles_traverse fp) book.

(** The first loop of [addChaptersToBook]: lines are appended to [header]
    until one matches [reBody]; any read error, end of input included, is
    returned. *)
Fixpoint read_header (ls : list (list ascii)) (header : list ascii)
  : result (list ascii * list (list ascii)) :=
  match ls with
  | [] => Err EOF
  | l :: ls' =>
      let header' := header ++ l ++ [nl] in
      if MatchString reBody l then Ok (header', ls')
      else read_header ls' header'
  end.

(** The statement [if buf.Len() > 0 { ... }] met at a chapter boundary:
    the resulting book, the resulting buffer, and the error it returns
    with, if any. *)
Definition flush (title buf : list ascii) (depth : Z) (book : Epub)
  : Epub * list ascii * option error :=
  if (0 <? length buf)%nat then
    let buf1 := buf ++ footer in
    match AddChapter title buf1 depth book with
    | (book', Some e) => (book', buf1, Some e)
    | (book', None) => (book', [], None)
    end
  else (book, buf, None).

(** The second loop of [addChaptersToBook] and the code after it. *)
Fixpoint scan (header : list ascii) (maxDepth : Z) (ls : list (list ascii))
         (buf : list ascii) (depth : Z) (title : list ascii) (book : Epub)
  : Epub * option error :=
  match ls with
  | [] =>
      if (0 <? length buf)%nat
      then (fst (AddChapter title buf depth book), None)
      else (book, None)
  | l :: ls' =>
      let (nd, nt) := checkNewChapter l in
      if ((0 <? nd) && (nd <=? maxDepth))%Z then
        match flush title buf depth book with
        | (book', _, Some e) => (book', Some e)
        | (book', buf', None) =>
            scan header maxDepth ls' ((buf' ++ header) ++ l ++ [nl])
                 nd nt book'
        end
      else scan header maxDepth ls' (buf ++ l ++ [nl]) depth title book
  end.

Definition addChaptersToBook (book : Epub) (fp : FileProvider) (maxDepth : Z)
  : Epub * option error :=
  match OpenFile fp (str "book.html") with
  | Err e => (book, Some e)
  | Ok f =>
      match read_header (ReadLines f) [] with
      | Err e => (book, Some e)
      | Ok (header, rest) => scan header maxDepth rest [] 1%Z [] book
      end
  end.

(** *** The pipeline

    The configuration loader, [NewEpub], [MaxDepth] and the command line
    are collaborators of [generateBook]; messages printed on the way are
    left out. *)
Variable Config : Type.
Variable ParseIni : ReadCloser -> result Config.
Variable GetString : Config -> list ascii -> list ascii -> list ascii.
Variable GetInt : Config -> list ascii -> Z -> Z.
Variable NewEpub : list ascii -> result Epub.
Variable MaxDepth : Z.
Variable Args : list (list ascii).

Definition loadConfig (fp : FileProvider) : result Config :=
  match OpenFile fp (str "book.ini") with
  | Err e => Err e
  | Ok rc => ParseIni rc
  end.

(** [generateBook]: the book as each stage left it, and the error. *)
Definition generateBook (fp : FileProvider) : option Epub * option error :=
  match loadConfig fp with
  | Err e => (None, Some e)
  | Ok cfg =>
      match NewEpub (GetString cfg (str "/book/id") []) with
      | Err e => (None, Some e)
      | Ok book =>
          let book := SetName (GetString cfg (str "/book/name") []) book in
          let book := SetAuthor (GetString cfg (str "/book/author") []) book in
          match setCoverPage book fp with
          | (book, Some e) => (Some book, Some e)
          | (book, None) =>
              match addFilesToBook book fp with
              | (book, Some e) => (Some book, Some e)
              | (book, None) =>
                  let depth := GetInt cfg (str "/book/depth") 1%Z in
                  let depth :=
                    if ((depth <? 1) || (MaxDepth <? depth))%Z
                    then 1%Z else depth in
                  match addChaptersToBook book fp depth with
                  | (book, Some e) => (Some book, Some e)
                  | (book, None) =>
                      let s := GetString cfg (str "/output/path") [] in
                      let s :=
                        if (3 <=? length Args)%nat
                        then nth 2 Args [] else s in
                      if (length s =? 0)%nat then (Some book, None)
                      else
                        match Save s book with
                        | (book, Some e) => (Some book, Some e)
                        | (book, None) => (Some book, None)
                        end
                  end
              end
          end
      end
  end.

End Container.

(** ** Notions used to state the properties *)

(** The longest prefix of [s] inside the class [p], and what follows it. *)
Fixpoint taken (p : ascii -> bool) (s : list ascii) : list ascii :=
  match s with
  | x :: s' => if p x then x :: taken p s' else []
  | [] => []
  end.

Fixpoint skip (p : ascii -> bool) (s : list ascii) : list ascii :=
  match s with
  | x :: s' => if p x then skip p s' else s
  | [] => []
  end.

(** The digit that writes a heading level. *)
Definition level_digit (N : Z) : ascii := ascii_of_N (48 + Z.to_N N).

(** A blank is a space or a tab; the letter of a heading tag is h in
    either case.  Both are written out here, apart from the classes of the
    patterns. *)
Definition blank (c : ascii) : Prop := c = " " \/ c = "009".

Definition letter_h (c : ascii) : Prop := c = "h" \/ c = "H".

(** A heading line in the words of the specification: between blanks, an
    opening heading tag of level [N] in 1..6, an inner text with no tag
    marker, that is with neither angle bracket, and the closing heading
    tag of the same level.  An opening heading tag of level [N] is the
    tag name, h and the digit of [N], between angle brackets, with or
    without attributes set apart from the name by a blank. *)
Inductive OpeningTag (N : Z) : list ascii -> Prop :=
| opening_bare (h : ascii) :
    letter_h h ->
    OpeningTag N ["<"; h; level_digit N; ">"]
| opening_attrs (h b : ascii) (attrs : list ascii) :
    letter_h h -> blank b ->
    Forall (fun c => c <> ">") attrs ->
    OpeningTag N ("<" :: h :: level_digit N :: b :: attrs ++ [">"]).

Inductive SpecHeadingLine (l : list ascii) (N : Z) (title : list ascii)
  : Prop :=
| spec_heading_line (lead trail otag : list ascii) (h' : ascii) :
    Forall blank lead ->
    Forall blank trail ->
    (1 <= N <= 6)%Z ->
    OpeningTag N otag ->
    letter_h h' ->
    Forall (fun c => c <> "<" /\ c <> ">") title ->
    l = lead ++ otag ++ title
             ++ "<" :: "/" :: h' :: level_digit N :: ">" :: trail ->
    SpecHeadingLine l N title.

(** The lines that [checkNewChapter] takes for a heading of level [N]
    with title [title], character by character: blanks, an opening angle
    bracket, h in either case, the digit of [N], any text without a
    closing angle bracket, a closing angle bracket, the title, which
    holds no opening angle bracket, then the closing tag of the same
    level and blanks. *)
Inductive HeadingLine (l : list ascii) (N : Z) (title : list ascii) : Prop :=
| heading_line (lead trail attrs : list ascii) (h h' : ascii) :
    Forall blank lead ->
    Forall blank trail ->
    letter_h h ->
    letter_h h' ->
    (1 <= N <= 6)%Z ->
    Forall (fun c => c <> ">") attrs ->
    Forall (fun c => c <> "<") title ->
    l = lead ++ "<" :: h :: level_digit N :: attrs ++ ">" :: title
             ++ "<" :: "/" :: h' :: level_digit N :: ">" :: trail ->
    HeadingLine l N title.

(** The text made of a sequence of lines, each ended by a newline. *)
Definition text (ls : list (list ascii)) : list ascii :=
  concat (map (fun l => l ++ [nl]) ls).

(** The Envelope of a document: its lines through the first one that
    matches [reBody], as text; [None] when no line matches. *)
Definition Envelope (doc : list (list ascii)) : option (list ascii) :=
  match read_header doc [] with
  | Ok (header, _) => Some header
  | Err _ => None
  end.

(** The body lines of a document: those after the body-open line. *)
Definition body_lines (doc : list (list ascii)) : list (list ascii) :=
  match read_header doc [] with
  | Ok (_, rest) => rest
  | Err _ => []
  end.

Fixpoint begins_with (pre s : list ascii) : bool :=
  match pre, s with
  | [], _ => true
  | a :: pre', b :: s' => Ascii.eqb a b && begins_with pre' s'
  | _ :: _, [] => false
  end.

Definition ends_with (suf s : list ascii) : bool :=
  begins_with (rev suf) (rev s).

(** Removal of a prefix, of a suffix, when present. *)
Definition strip_prefix (pre s : list ascii) : list ascii :=
  if begins_with pre s then skipn (length pre) s else s.

Definition strip_suffix (suf s : list ascii) : list ascii :=
  if ends_with suf s then firstn (length s - length suf) s else s.

(** A chapter's content without the Envelope and the closing tags. *)
Definition payload (envelope : list ascii) (c : Chapter) : list ascii :=
  strip_suffix footer (strip_prefix envelope (ch_content c)).

(** [content] contains the line [l]. *)
Definition has_line (l content : list ascii) : Prop :=
  exists a b, content = a ++ (l ++ [nl]) ++ b.

(** [l] is a chapter boundary under [maxDepth]. *)
Definition is_boundary (maxDepth : Z) (l : list ascii) : bool :=
  let (nd, _) := checkNewChapter l in ((0 <? nd) && (nd <=? maxDepth))%Z.

(** What [reHeader] accepts, and what its groups are. *)
Inductive HeaderMatch (l : list ascii) (d : ascii) (title : list ascii)
          (d' : ascii) : Prop :=
| header_match (lead trail attrs : list ascii) (h h' : ascii) :
    Forall (fun c => is_blank c = true) lead ->
    Forall (fun c => is_blank c = true) trail ->
    is_hH h = true -> is_hH h' = true ->
    is_1to6 d = true -> is_1to6 d' = true ->
    Forall (fun c => not_gt c = true) attrs ->
    Forall (fun c => not_lt c = true) title ->
    l = lead ++ "<" :: h :: d :: attrs ++ ">" :: title
             ++ "<" :: "/" :: h' :: d' :: ">" :: trail ->
    HeaderMatch l d title d'.

(** [seg] is the content of [c] between an optional copy of the Envelope
    and optional closing tags. *)
Definition wraps (header : list ascii) (c : Chapter) (seg : list ascii)
  : Prop :=
  exists pre post,
    (pre = [] \/ pre = header) /\ (post = [] \/ post = footer)
    /\ ch_content c = pre ++ seg ++ post.

(** Calling [traverseFn] on each path of a list in turn, up to the first
    error. *)
Fixpoint visit {S : Type} (traverseFn : TraverseFunc S)
         (names : list (list ascii)) (st : S) : S * option error :=
  match names with
  | [] => (st, None)
  | n :: names' =>
      match traverseFn n st with
      | (st', Some e) => (st', Some e)
      | (st', None) => visit traverseFn names' st'
      end
  end.

(** [fp] enumerates the entries [names], in this order. *)
Definition visits (fp : FileProvider) (names : list (list ascii)) : Prop :=
  forall (S : Type) (traverseFn : TraverseFunc S) (st : S),
    Traverse fp S traverseFn st = visit traverseFn names st.

(** [fp] hands the entries [names] to the callback, in this order, and
    then, when no callback has failed, returns [werr]: the error that
    ended the enumeration itself, if any. *)
Definition traverses (fp : FileProvider) (names : list (list ascii))
           (werr : option error) : Prop :=
  forall (S : Type) (traverseFn : TraverseFunc S) (st : S),
    Traverse fp S traverseFn st
    = match visit traverseFn names st with
      | (st', None) => (st', werr)
      | (st', Some e) => (st', Some e)
      end.

(** The items of a directory walk before its first error, and that
    error. *)
Fixpoint walk_before_error (items : list WalkItem) : list WalkItem :=
  match items with
  | [] => []
  | it :: items' =>
      match wi_err it with
      | Some _ => []
      | None => it :: walk_before_error items'
      end
  end.

Fixpoint walk_first_error (items : list WalkItem) : option error :=
  match items with
  | [] => None
  | it :: items' =>
      match wi_err it with
      | Some e => Some e
      | None => walk_first_error items'
      end
  end.

Definition not_reserved {strs : Strings} (path : list ascii) : bool :=
  negb (is_reserved (ToLower path)).

(** The content of [c] begins with [header]. *)
Definition enveloped (header : list ascii) (c : Chapter) : Prop :=
  begins_with header (ch_content c) = true.

(** [a] is the path of an unreserved entry with the bytes read from it. *)
Definition read_from_entry {strs : Strings} (fp : FileProvider)
           (a : list ascii * list ascii) : Prop :=
  not_reserved (fst a) = true
  /\ exists rc, OpenFile fp (fst a) = Ok rc /\ ReadAll rc = Ok (snd a).

(** *** Sample providers and containers *)

(** The samples have ASCII names: from here on [ToLower] is
    [ascii_ToLower] unless a statement is made for every [Strings]. *)
#[global] Instance ascii_strings : Strings := {| ToLower := ascii_ToLower |}.

(** A container that accepts every call. *)
Definition accept_all : Epub -> call -> option error := fun _ _ => None.

(** A container that refuses every chapter. *)
Definition refuse_chapters : Epub -> call -> option error :=
  fun _ c =>
    match c with
    | AddChapterCall _ _ _ => Some (ErrOther "chapter refused")
    | _ => None
    end.

(** Modelled from the spec: the container component, whose source is not
    part of [main.go]; [addChapter(title, bytes, depth)] answers ok or
    DepthExceeded, the latter when the depth exceeds the supported
    maximum [maxDepth()]. *)
Definition depth_limited (max : Z) : Epub -> call -> option error :=
  fun _ c =>
    match c with
    | AddChapterCall _ _ d =>
        if (max <? d)%Z then Some (ErrOther "DepthExceeded") else None
    | _ => None
    end.

(** A readable file holding the given lines. *)
Definition file_of_lines (ls : list string) : ReadCloser :=
  {| ReadLines := map str ls; ReadAll := Ok (text (map str ls)) |}.

(** A file that opens but whose content cannot be read. *)
Definition unreadable_file : ReadCloser :=
  {| ReadLines := []; ReadAll := Err (ErrOther "read failed") |}.

Definition zip_entry (name : string) (f : ReadCloser) : zipFile :=
  {| Name := str name; Open := Ok f |}.

Definition zip_of (entries : list zipFile) : FileProvider :=
  ZipProvider {| File := entries |}.

(** A case-sensitive file system holding the given files below its root,
    for [FolderSource]. *)
Fixpoint lookup_file (files : list (list ascii * ReadCloser))
         (path : list ascii) : result ReadCloser :=
  match files with
  | [] => Err ErrNotExist
  | (n, f) :: files' =>
      if bytes_eqb n path then Ok f else lookup_file files' path
  end.

Definition flat_os (files : list (list ascii * ReadCloser)) : OS :=
  {| os_Open := lookup_file files;
     os_Walk := fun root =>
       {| wi_path := root; wi_isDir := true; wi_err := None |}
       :: map (fun nf => {| wi_path := fst nf; wi_isDir := false;
                            wi_err := None |}) files;
     filepath_Join := fun b p => b ++ p;
     filepath_Rel := fun b p => skipn (length b) p |}.

(** An archive holding the given lines as its content document. *)
Definition book_zip (ls : list string) : FileProvider :=
  zip_of [zip_entry "book.html" (file_of_lines ls)].

(** The scenario document: two Envelope lines, then the six body lines. *)
Definition scenario_doc : list string :=
  ["<html>"; "<body>"; "<h1>A</h1>"; "p1"; "<h2>A.1</h2>"; "p2";
   "<h1>B</h1>"; "p3"]%string.

(** A document without a body-open line. *)
Definition headless_doc : list string := ["<html>"; "<p>x</p>"]%string.

(** An archive with one entry that cannot be opened. *)
Definition unopenable_zip : ZipSource :=
  {| File := [ {| Name := str "pic.png";
                  Open := Err (ErrOther "cannot open") |} ] |}.

(** An archive with the three reserved entries, in various letter cases,
    and one style sheet. *)
Definition mixed_zip : ZipSource :=
  {| File := [ zip_entry "book.ini" (file_of_lines []);
               zip_entry "COVER.HTML" (file_of_lines ["cover"]%string);
               zip_entry "style.css" (file_of_lines ["p {}"]%string);
               zip_entry "Book.html" (file_of_lines ["<body>"]%string) ] |}.

(** A pipeline whose configuration gives every default, whose container
    can be created and supports six levels, run with an output path on
    the command line. *)
Definition run_pipeline (respond : Epub -> call -> option error)
           (fp : FileProvider) : option Epub * option error :=
  generateBook respond unit (fun _ => Ok tt) (fun _ _ d => d)
               (fun _ _ d => d) (fun _ => Ok []) 6
               (map str ["makeepub"; "src.zip"; "out.epub"]%string) fp.

(** *** Further notions *)

(** A line that opens the body: blanks, an opening angle bracket, the
    word body in any letter case, anything up to the closing angle
    bracket, and nothing behind it. *)
Inductive BodyOpenLine (l : list ascii) : Prop :=
| body_open_line (lead attrs : list ascii) (b o d y : ascii) :
    Forall (fun c => is_blank c = true) lead ->
    fold "b" "B" b = true -> fold "o" "O" o = true ->
    fold "d" "D" d = true -> fold "y" "Y" y = true ->
    Forall (fun c => c <> ">") attrs ->
    l = lead ++ "<" :: b :: o :: d :: y :: attrs ++ [">"] ->
    BodyOpenLine l.

(** The title and the depth that a chapter gets from the heading line
    that opens it. *)
Definition heading_of (l : list ascii) : list ascii * Z :=
  (snd (checkNewChapter l), fst (checkNewChapter l)).

Definition chapter_heading (c : Chapter) : list ascii * Z :=
  (ch_title c, ch_depth c).

Definition is_chapter_call (c : call) : bool :=
  match c with AddChapterCall _ _ _ => true | _ => false end.

Definition is_file_call (c : call) : bool :=
  match c with AddFileCall _ _ => true | _ => false end.

Definition is_save_call (c : call) : bool :=
  match c with SaveCall _ => true | _ => false end.

(** The paths a directory walk hands to the callback: those of the items
    that are no directory, relative to the base. *)
Definition folder_entries (os : OS) (fs : FolderSource)
           (items : list WalkItem) : list (list ascii) :=
  map (fun it => filepath_Rel os (base fs) (wi_path it))
      (filter (fun it => negb (wi_isDir it)) items).

(** *** Further samples *)

(** A document whose body has no heading. *)
Definition plain_doc : list string := ["<body>"; "p"; "q"]%string.

(** A document with two chapters of depth 1. *)
Definition two_chapter_doc : list string :=
  ["<body>"; "<h1>A</h1>"; "p1"; "<h1>B</h1>"; "p2"]%string.

(** A complete source archive. *)
Definition full_zip : ZipSource :=
  {| File := [ zip_entry "book.ini" (file_of_lines []);
               zip_entry "cover.html" (file_of_lines ["cover"]%string);
               zip_entry "style.css" (file_of_lines ["p {}"]%string);
               zip_entry "book.html" (file_of_lines two_chapter_doc) ] |}.

(** A directory with one style sheet. *)
Definition style_os : OS :=
  flat_os [(str "root/style.css", file_of_lines ["p {}"]%string)].

(** A directory whose walk fails after the first file. *)
Definition broken_os : OS :=
  {| os_Open := fun _ => Err ErrNotExist;
     os_Walk := fun root =>
       [ {| wi_path := root; wi_isDir := true; wi_err := None |};
         {| wi_path := str "root/a.css"; wi_isDir := false; wi_err := None |};
         {| wi_path := str "root/sub"; wi_isDir := true;
            wi_err := Some (ErrOther "permission denied") |};
         {| wi_path := str "root/z.css"; wi_isDir := false;
            wi_err := None |} ];
     filepath_Join := fun b p => b ++ p;
     filepath_Rel := fun b p => skipn (length b) p |}.

(** A callback that records the paths it is given. *)
Definition record_path : TraverseFunc (list (list ascii)) :=
  fun path seen => (seen ++ [path], None).

(** ** Tactics for stepping through a pattern *)

Ltac need_lit H x s E :=
  match type of H with
  | run (Lit _ :: _) ?t _ _ = Some _ =>
      destruct t as [|x s] eqn:E; [discriminate H|]
  end;
  match type of H with
  | run (Lit ?c :: ?re) _ ?os ?cs = Some ?r =>
      change ((if Ascii.eqb x c then run re s os cs else None) = Some r) in H;
      let B := fresh "B" in
      destruct (Ascii.eqb x c) eqn:B; [|discriminate H];
      apply Ascii.eqb_eq in B; subst x
  end.

Ltac need_cls H x s Hx :=
  match type of H with
  | run (Cls _ :: _) ?t _ _ = Some _ =>
      destruct t as [|x s]; [discriminate H|]
  end;
  match type of H with
  | run (Cls ?p :: ?re) _ ?os ?cs = Some ?r =>
      change ((if p x then run re s os cs else None) = Some r) in H;
      destruct (p x) eqn:Hx; [|discriminate H]
  end.

(** * Properties *)

(** ** The pattern matcher *)

Section StarLemmas.

Context {R : Type} (p : ascii -> bool) (k : list ascii -> option R).

Lemma taken_skip (s : list ascii) : taken p s ++ skip p s = s.
Proof.
  induction s as [|x s IH]; simpl; [reflexivity|].
  destruct (p x); simpl; [now rewrite IH | reflexivity].
Qed.

Lemma taken_all (s : list ascii) : Forall (fun c => p c = true) (taken p s).
Proof.
  induction s as [|x s IH]; simpl; [constructor|].
  destruct (p x) eqn:E; [constructor; assumption | constructor].
Qed.

Lemma skip_app (a b : list ascii) (c : ascii) :
  Forall (fun x => p x = true) a -> p c = false ->
  skip p (a ++ c :: b) = c :: b.
Proof.
  intros Ha Hc. induction Ha as [|x a Hx _ IH]; simpl.
  - now rewrite Hc.
  - now rewrite Hx.
Qed.

Lemma taken_app (a b : list ascii) (c : ascii) :
  Forall (fun x => p x = true) a -> p c = false ->
  taken p (a ++ c :: b) = a.
Proof.
  intros Ha Hc. induction Ha as [|x a Hx _ IH]; simpl.
  - now rewrite Hc.
  - now rewrite Hx, IH.
Qed.

Lemma skip_all (a : list ascii) :
  Forall (fun x => p x = true) a -> skip p a = [].
Proof.
  induction 1 as [|x a Hx _ IH]; simpl; [reflexivity|now rewrite Hx].
Qed.

(** Backtracking never helps when the continuation refuses every input
    that starts inside the class: the greedy choice decides. *)
Lemma star_skip (s : list ascii) :
  (forall x s', p x = true -> k (x :: s') = None) ->
  star p k s = k (skip p s).
Proof.
  intros Hk. induction s as [|x s IH]; simpl; [reflexivity|].
  destruct (p x) eqn:E; [|reflexivity].
  rewrite IH. destruct (k (skip p s)) eqn:K; [reflexivity|].
  now apply Hk.
Qed.

End StarLemmas.

Lemma firstn_taken (p : ascii -> bool) (s : list ascii) :
  firstn (length s - length (skip p s)) s = taken p s.
Proof.
  rewrite <- (taken_skip p s) at 1 3.
  rewrite length_app.
  replace (length (taken p s) + length (skip p s) - length (skip p s))%nat
    with (length (taken p s) + 0)%nat by lia.
  rewrite firstn_app_2. simpl. now rewrite app_nil_r.
Qed.

Lemma run_star_lit p c re s os cs :
  p c = false ->
  run (Star p :: Lit c :: re) s os cs = run (Lit c :: re) (skip p s) os cs.
Proof.
  intros Hc. cbn [run]. apply (star_skip p). intros x s' Hx.
  destruct (Ascii.eqb x c) eqn:E; [|reflexivity].
  apply Ascii.eqb_eq in E. congruence.
Qed.

Lemma run_star_close_lit p c re s os cs :
  p c = false ->
  run (Star p :: GroupClose :: Lit c :: re) s os cs
  = run (GroupClose :: Lit c :: re) (skip p s) os cs.
Proof.
  intros Hc. cbn [run]. apply (star_skip p). intros x s' Hx.
  destruct os as [|s0 os]; [reflexivity|].
  destruct (Ascii.eqb x c) eqn:E; [|reflexivity].
  apply Ascii.eqb_eq in E. congruence.
Qed.

Lemma run_star_end p s os cs :
  run [Star p] s os cs = run [] (skip p s) os cs.
Proof.
  cbn [run]. apply (star_skip p). reflexivity.
Qed.

Lemma firstn_one (d : ascii) (s : list ascii) :
  firstn (length (d :: s) - length s) (d :: s) = [d].
Proof.
  change (length (d :: s)) with (S (length s)).
  replace (S (length s) - length s)%nat with 1%nat by lia.
  reflexivity.
Qed.

Lemma not_gt_iff c : not_gt c = true <-> c <> ">".
Proof.
  unfold not_gt. rewrite negb_true_iff. split.
  - intros H ->. discriminate.
  - intros H. destruct (Ascii.eqb c ">") eqn:E; [|reflexivity].
    apply Ascii.eqb_eq in E. contradiction.
Qed.

Lemma not_lt_iff c : not_lt c = true <-> c <> "<".
Proof.
  unfold not_lt. rewrite negb_true_iff. split.
  - intros H ->. discriminate.
  - intros H. destruct (Ascii.eqb c "<") eqn:E; [|reflexivity].
    apply Ascii.eqb_eq in E. contradiction.
Qed.

Lemma run_lit c re x s os cs :
  run (Lit c :: re) (x :: s) os cs
  = if Ascii.eqb x c then run re s os cs else None.
Proof. reflexivity. Qed.

Lemma run_cls p re x s os cs :
  run (Cls p :: re) (x :: s) os cs = if p x then run re s os cs else None.
Proof. reflexivity. Qed.

Lemma run_open re s os cs :
  run (GroupOpen :: re) s os cs = run re s (s :: os) cs.
Proof. reflexivity. Qed.

Lemma run_close re s s0 os cs :
  run (GroupClose :: re) s (s0 :: os) cs
  = run re s os (cs ++ [firstn (length s0 - length s) s0]).
Proof. reflexivity. Qed.

Lemma run_reHeader_sound l d title d' :
  HeaderMatch l d title d' ->
  run reHeader l [] [] = Some [[d]; title; [d']].
Proof.
  intros [lead trail attrs h h' Hlead Htrail Hh Hh' Hd Hd' Hattrs Htitle ->].
  unfold reHeader.
  rewrite run_star_lit, skip_app by (assumption || reflexivity).
  rewrite run_lit, Ascii.eqb_refl, run_cls, Hh.
  rewrite run_open, run_cls, Hd, run_close, firstn_one.
  rewrite run_star_lit, skip_app by (assumption || reflexivity).
  rewrite run_lit, Ascii.eqb_refl, run_open.
  rewrite run_star_close_lit by reflexivity.
  rewrite run_close, firstn_taken.
  rewrite skip_app, taken_app by (assumption || reflexivity).
  rewrite !run_lit, !Ascii.eqb_refl, run_cls, Hh'.
  rewrite run_open, run_cls, Hd', run_close, firstn_one.
  rewrite run_lit, Ascii.eqb_refl.
  rewrite run_star_end, skip_all by assumption.
  reflexivity.
Qed.

Lemma run_reHeader_complete l caps :
  run reHeader l [] [] = Some caps ->
  exists d title d', caps = [[d]; title; [d']] /\ HeaderMatch l d title d'.
Proof.
  unfold reHeader. intros H.
  rewrite run_star_lit in H by reflexivity.
  need_lit H x1 s1 E1.
  need_cls H h s2 Hh.
  rewrite run_open in H. need_cls H d s3 Hd.
  rewrite run_close, firstn_one in H.
  rewrite run_star_lit in H by reflexivity.
  need_lit H x2 s4 E2.
  rewrite run_open, run_star_close_lit in H by reflexivity.
  rewrite run_close, firstn_taken in H.
  need_lit H x3 s5 E3.
  need_lit H x4 s6 E4.
  need_cls H h' s7 Hh'.
  rewrite run_open in H. need_cls H d' s8 Hd'.
  rewrite run_close, firstn_one in H.
  need_lit H x5 s9 E5.
  rewrite run_star_end in H.
  destruct (skip is_blank s9) eqn:E6; [|discriminate H].
  cbn [run app] in H. injection H as <-.
  exists d, (taken not_lt s4), d'. split; [reflexivity|].
  apply (header_match l d (taken not_lt s4) d'
           (taken is_blank l) s9 (taken not_gt s3) h h');
    try assumption; try apply taken_all.
  - rewrite <- (taken_skip is_blank s9), E6, app_nil_r. apply taken_all.
  - rewrite <- (taken_skip is_blank l) at 1. rewrite E1. f_equal.
    do 3 f_equal.
    rewrite <- (taken_skip not_gt s3) at 1. rewrite E2. f_equal. f_equal.
    rewrite <- (taken_skip not_lt s4) at 1. rewrite E3. reflexivity.
Qed.

Lemma bytes_eqb_eq a b : bytes_eqb a b = true <-> a = b.
Proof.
  unfold bytes_eqb. destruct (list_eq_dec ascii_dec a b); split;
    intros; congruence.
Qed.

Lemma bytes_eqb_refl a : bytes_eqb a a = true.
Proof. now apply bytes_eqb_eq. Qed.

Lemma is_1to6_level d :
  is_1to6 d = true ->
  (1 <= byte_sub d "0" <= 6)%Z /\ d = level_digit (byte_sub d "0").
Proof.
  destruct d as [[] [] [] [] [] [] [] []]; intros H; try discriminate H;
    vm_compute; repeat split; discriminate.
Qed.

Lemma level_digit_1to6 N :
  (1 <= N <= 6)%Z ->
  is_1to6 (level_digit N) = true /\ byte_sub (level_digit N) "0" = N.
Proof.
  intros H.
  assert (N = 1 \/ N = 2 \/ N = 3 \/ N = 4 \/ N = 5 \/ N = 6)%Z
    as [->|[->|[->|[->|[->| ->]]]]] by lia; split; reflexivity.
Qed.

Lemma Forall_not_gt s :
  Forall (fun c => c <> ">") s <-> Forall (fun c => not_gt c = true) s.
Proof. split; apply Forall_impl; intros c; apply not_gt_iff. Qed.

Lemma Forall_not_lt s :
  Forall (fun c => c <> "<") s <-> Forall (fun c => not_lt c = true) s.
Proof. split; apply Forall_impl; intros c; apply not_lt_iff. Qed.

Lemma is_blank_iff c : is_blank c = true <-> blank c.
Proof.
  unfold is_blank, blank, tab. rewrite orb_true_iff, !Ascii.eqb_eq.
  reflexivity.
Qed.

Lemma is_hH_iff c : is_hH c = true <-> letter_h c.
Proof.
  unfold is_hH, letter_h. rewrite orb_true_iff, !Ascii.eqb_eq.
  reflexivity.
Qed.

Lemma Forall_blank s :
  Forall blank s <-> Forall (fun c => is_blank c = true) s.
Proof. split; apply Forall_impl; intros c; apply is_blank_iff. Qed.

Lemma HeadingLine_HeaderMatch l N title :
  HeadingLine l N title <->
  (1 <= N <= 6)%Z /\ HeaderMatch l (level_digit N) title (level_digit N).
Proof.
  split.
  - intros [lead trail attrs h h' Hl Ht Hh Hh' HN Ha Hti ->].
    split; [exact HN|].
    apply (header_match _ _ _ _ lead trail attrs h h');
      try apply (level_digit_1to6 N HN);
      [now apply Forall_blank | now apply Forall_blank
       | now apply is_hH_iff | now apply is_hH_iff
       | now apply Forall_not_gt | now apply Forall_not_lt | reflexivity].
  - intros [HN [lead trail attrs h h' Hl Ht Hh Hh' _ _ Ha Hti ->]].
    apply (heading_line _ _ _ lead trail attrs h h');
      [now apply Forall_blank | now apply Forall_blank
       | now apply is_hH_iff | now apply is_hH_iff | exact HN
       | now apply Forall_not_gt | now apply Forall_not_lt | reflexivity].
Qed.

Lemma HeaderMatch_digit l d title d' :
  HeaderMatch l d title d' -> is_1to6 d = true.
Proof. now intros [? ? ? ? ? _ _ _ _ Hd _ _ _ _]. Qed.

(** The two outcomes of [checkNewChapter]. *)
Lemma checkNewChapter_cases l :
  (exists d title, HeaderMatch l d title d
                   /\ checkNewChapter l = (byte_sub d "0", title))
  \/ (checkNewChapter l = (0%Z, [])
      /\ forall d title, ~ HeaderMatch l d title d).
Proof.
  unfold checkNewChapter, FindStringSubmatch.
  destruct (run reHeader l [] []) as [caps|] eqn:R.
  - destruct (run_reHeader_complete l caps R) as (d & t & d' & -> & M).
    destruct (bytes_eqb [d] [d']) eqn:E.
    + apply bytes_eqb_eq in E. injection E as <-.
      left. exists d, t. split; [exact M | reflexivity].
    + right. split; [reflexivity|]. intros d0 t0 M0.
      apply run_reHeader_sound in M0. rewrite R in M0.
      injection M0 as -> -> ->. now rewrite bytes_eqb_refl in E.
  - right. split; [reflexivity|]. intros d0 t0 M0.
    apply run_reHeader_sound in M0. congruence.
Qed.

(** C3, amended.  [checkNewChapter] returns depth [N] and title [title],
    with [N] not zero, exactly for the lines made of: spaces and tabs; an
    opening angle bracket, h in either case, a digit [N] in 1..6, any
    text without a closing angle bracket (attributes, but also further
    characters of a tag name, as in h12) and a closing angle bracket; a
    title without an opening angle bracket (it may hold closing ones);
    the closing tag of the same digit [N]; spaces and tabs.  The title is
    returned as it stands.  Every other line, such as one whose two
    digits differ or one with a tag inside the title, gives depth 0 and
    the empty title. *)
Theorem checkNewChapter_spec (l : list ascii) :
  (forall N title,
      HeadingLine l N title <->
      checkNewChapter l = (N, title) /\ N <> 0%Z)
  /\ ((forall N title, ~ HeadingLine l N title) ->
      checkNewChapter l = (0%Z, [])).
Proof.
  split.
  - intros N title. rewrite HeadingLine_HeaderMatch. split.
    + intros [HN M]. destruct (checkNewChapter_cases l)
        as [(d & t & M' & E) | [_ No]]; [|now destruct (No _ _ M)].
      apply run_reHeader_sound in M, M'. rewrite M in M'.
      injection M' as <- <-. rewrite E.
      rewrite (proj2 (level_digit_1to6 N HN)). split; [reflexivity|lia].
    + intros [E HN]. destruct (checkNewChapter_cases l)
        as [(d & t & M & E') | [E' _]].
      * rewrite E in E'. injection E' as -> ->.
        pose proof (HeaderMatch_digit _ _ _ _ M) as Hd.
        destruct (is_1to6_level d Hd) as [Hr Hl]. split; [exact Hr|].
        now rewrite <- Hl.
      * rewrite E in E'. injection E' as -> _. contradiction.
  - intros No. destruct (checkNewChapter_cases l)
      as [(d & t & M & E) | [E _]]; [|exact E].
    exfalso. pose proof (HeaderMatch_digit _ _ _ _ M) as Hd.
    destruct (is_1to6_level d Hd) as [Hr Hl].
    apply (No (byte_sub d "0") t). apply HeadingLine_HeaderMatch.
    split; [exact Hr|]. now rewrite <- Hl.
Qed.

(** What the specification calls a heading line is detected as such. *)
Lemma spec_heading_is_detected (l : list ascii) (N : Z) (title : list ascii) :
  SpecHeadingLine l N title -> HeadingLine l N title.
Proof.
  intros [lead trail otag h' Hl Ht HN Ho Hh' Hti ->].
  assert (Hti' : Forall (fun c => c <> "<") title).
  { eapply Forall_impl; [|exact Hti]. now intros c [H _]. }
  destruct Ho as [h Hh | h b attrs Hh Hb Ha].
  - now apply (heading_line _ _ _ lead trail [] h h').
  - apply (heading_line _ _ _ lead trail (b :: attrs) h h');
      try assumption.
    + constructor; [|exact Ha]. destruct Hb as [-> | ->]; discriminate.
    + cbn [app]. now rewrite <- !app_assoc.
Qed.

(** C3 as stated fails: the line made of a tag h12, the text A and the
    closing tag of level 1 is no heading line of the specification, its
    opening tag being no heading tag of level 1, yet [checkNewChapter]
    returns depth 1 and title A for it. *)
Lemma h12_is_taken_for_level_one :
  ~ (forall N title,
        SpecHeadingLine (str "<h12>A</h1>") N title <->
        checkNewChapter (str "<h12>A</h1>") = (N, title) /\ N <> 0%Z).
Proof.
  intros H. destruct (H 1%Z (str "A")) as [_ H'].
  assert (S1 : SpecHeadingLine (str "<h12>A</h1>") 1 (str "A")).
  { apply H'. split; [reflexivity | discriminate]. }
  destruct S1 as [lead trail otag h' Hl _ _ Ho _ _ E].
  destruct lead as [|c lead].
  - cbn [app] in E.
    destruct Ho as [h Hh | h b attrs Hh Hb Ha]; vm_compute in E.
    + discriminate E.
    + injection E as _ Eb _. subst b. destruct Hb as [Hb | Hb];
        discriminate Hb.
  - vm_compute in E. injection E as Ec _. subst c.
    inversion Hl as [|? ? Hc _]. destruct Hc as [Hc | Hc]; discriminate Hc.
Qed.

(** A title with a closing angle bracket is returned as well. *)
Example title_with_closing_bracket :
  checkNewChapter (str "<h1>A > B</h1>") = (1%Z, str "A > B")
  /\ ~ SpecHeadingLine (str "<h1>A > B</h1>") 1 (str "A > B").
Proof.
  split; [reflexivity|].
  intros [lead trail otag h' _ _ _ _ _ Hti _].
  inversion Hti as [|? ? _ Hti1]. inversion Hti1 as [|? ? _ Hti2].
  inversion Hti2 as [|? ? Hc _]. now destruct Hc as [_ Hc].
Qed.

(** ** The chapter segmenter *)

Lemma chapters_app (a b : Epub) : chapters (a ++ b) = chapters a ++ chapters b.
Proof.
  induction a as [|c a IH]; simpl; [reflexivity|].
  destruct c; simpl; now rewrite IH.
Qed.

Lemma assets_app (a b : Epub) : assets (a ++ b) = assets a ++ assets b.
Proof.
  induction a as [|c a IH]; simpl; [reflexivity|].
  destruct c; simpl; now rewrite IH.
Qed.

Lemma text_cons (l : list ascii) (ls : list (list ascii)) :
  text (l :: ls) = (l ++ [nl]) ++ text ls.
Proof. reflexivity. Qed.

Lemma line_nonempty (buf l : list ascii) :
  (0 <? length (buf ++ l ++ [nl]))%nat = true.
Proof. apply Nat.ltb_lt. rewrite !length_app. simpl. lia. Qed.

Lemma read_header_none (ls : list (list ascii)) (h : list ascii) :
  Forall (fun l => MatchString reBody l = false) ls ->
  read_header ls h = Err EOF.
Proof.
  intros H. revert h. induction H as [|l ls Hl _ IH]; intros h; simpl.
  - reflexivity.
  - rewrite Hl. apply IH.
Qed.

Lemma read_header_app (pro : list (list ascii)) (b : list ascii)
      (rest : list (list ascii)) (h : list ascii) :
  Forall (fun l => MatchString reBody l = false) pro ->
  MatchString reBody b = true ->
  read_header (pro ++ b :: rest) h = Ok (h ++ text (pro ++ [b]), rest).
Proof.
  intros H Hb. revert h. induction H as [|l ls Hl _ IH]; intros h; simpl.
  - rewrite Hb. unfold text. simpl. now rewrite app_nil_r.
  - rewrite Hl, IH, text_cons. now rewrite <- !app_assoc.
Qed.

(** A document has an Envelope exactly when one of its lines opens the
    body; the document then splits as prologue, body-open line, body. *)
Lemma read_header_split (ls : list (list ascii)) (h : list ascii) :
  (Forall (fun l => MatchString reBody l = false) ls
   /\ read_header ls h = Err EOF)
  \/ exists pro b rest,
      ls = pro ++ b :: rest
      /\ Forall (fun l => MatchString reBody l = false) pro
      /\ MatchString reBody b = true
      /\ read_header ls h = Ok (h ++ text (pro ++ [b]), rest).
Proof.
  revert h. induction ls as [|l ls IH]; intros h.
  - left. split; [constructor | reflexivity].
  - destruct (MatchString reBody l) eqn:Hl.
    + right. exists [], l, ls. repeat split; [constructor | exact Hl |].
      now apply (read_header_app [] l ls h).
    + destruct (IH (h ++ l ++ [nl])) as [[Hn E] | (pro & b & rest & -> & Hp & Hb & E)].
      * left. split; [now constructor|]. simpl. now rewrite Hl.
      * right. exists (l :: pro), b, rest.
        repeat split; [now constructor | exact Hb |].
        now apply (read_header_app (l :: pro) b rest h); [constructor|].
Qed.

Section Segmenter.

Variable respond : Epub -> call -> option error.

Lemma scan_plain header maxDepth l ls buf depth title book :
  is_boundary maxDepth l = false ->
  scan respond header maxDepth (l :: ls) buf depth title book
  = scan respond header maxDepth ls (buf ++ l ++ [nl]) depth title book.
Proof.
  unfold is_boundary. cbn [scan].
  destruct (checkNewChapter l) as [nd nt]. now intros ->.
Qed.

Lemma scan_boundary header maxDepth l ls buf depth title book :
  is_boundary maxDepth l = true ->
  scan respond header maxDepth (l :: ls) buf depth title book
  = match flush respond title buf depth book with
    | (book', _, Some e) => (book', Some e)
    | (book', buf', None) =>
        scan respond header maxDepth ls ((buf' ++ header) ++ l ++ [nl])
             (fst (checkNewChapter l)) (snd (checkNewChapter l)) book'
    end.
Proof.
  unfold is_boundary. cbn [scan].
  destruct (checkNewChapter l) as [nd nt]. now intros ->.
Qed.

(** C8.  When the reserved content document opens but none of its lines
    matches the body-open pattern, [addChaptersToBook] returns the error
    met at the end of input and the book is left as it was: no chapter is
    emitted. *)
Theorem no_body_line_is_fatal (book : Epub) (fp : FileProvider)
        (maxDepth : Z) (f : ReadCloser) :
  OpenFile fp (str "book.html") = Ok f ->
  Forall (fun l => MatchString reBody l = false) (ReadLines f) ->
  addChaptersToBook respond book fp maxDepth = (book, Some EOF).
Proof.
  intros Hf Hn. unfold addChaptersToBook. rewrite Hf.
  now rewrite (read_header_none _ _ Hn).
Qed.

(** What [scan] adds to the chapters of the book has content. *)
Lemma scan_nonempty header maxDepth ls :
  forall buf depth title book,
  exists new,
    chapters (fst (scan respond header maxDepth ls buf depth title book))
    = chapters book ++ new
    /\ Forall (fun c => ch_content c <> []) new.
Proof.
  induction ls as [|l ls IH]; intros buf depth title book.
  - cbn [scan]. destruct (0 <? length buf)%nat eqn:E.
    + exists [ {| ch_title := title; ch_depth := depth; ch_content := buf |} ].
      split; [cbn; now rewrite chapters_app|].
      constructor; [|constructor]. cbn. intros ->. discriminate E.
    + exists []. split; [now rewrite app_nil_r | constructor].
  - destruct (is_boundary maxDepth l) eqn:B.
    + rewrite (scan_boundary _ _ _ _ _ _ _ _ B). unfold flush.
      destruct (0 <? length buf)%nat eqn:E.
      * cbn [AddChapter].
        set (c := {| ch_title := title; ch_depth := depth;
                     ch_content := buf ++ footer |}).
        assert (Hc : ch_content c <> []).
        { cbn. intros H. apply app_eq_nil in H. destruct H as [-> _].
          discriminate E. }
        destruct (respond book _) as [e|].
        -- exists [c]. split; [cbn; now rewrite chapters_app|].
           now constructor.
        -- destruct (IH (([] ++ header) ++ l ++ [nl])
                        (fst (checkNewChapter l)) (snd (checkNewChapter l))
                        (book ++ [AddChapterCall title (buf ++ footer) depth]))
             as (new & Hn & Hall).
           exists (c :: new). split; [|now constructor].
           rewrite Hn, chapters_app. cbn. now rewrite <- app_assoc.
      * apply IH.
    + rewrite (scan_plain _ _ _ _ _ _ _ _ B). apply IH.
Qed.

(** C10.  Every chapter that [addChaptersToBook] registers carries at
    least one byte of content, whatever the document, the depth limit and
    the answers of the container. *)
Theorem emitted_chapters_nonempty (book : Epub) (fp : FileProvider)
        (maxDepth : Z) :
  exists new,
    chapters (fst (addChaptersToBook respond book fp maxDepth))
    = chapters book ++ new
    /\ Forall (fun c => ch_content c <> []) new.
Proof.
  unfold addChaptersToBook.
  destruct (OpenFile fp (str "book.html")) as [f|e];
    [|exists []; split; [now rewrite app_nil_r | constructor]].
  destruct (read_header (ReadLines f) []) as [[header rest]|e];
    [|exists []; split; [now rewrite app_nil_r | constructor]].
  apply scan_nonempty.
Qed.

End Segmenter.

Section AcceptingContainer.

Variable respond : Epub -> call -> option error.
Hypothesis accepts : forall book c, respond book c = None.

Lemma flush_empty title depth book :
  flush respond title [] depth book = (book, [], None).
Proof. reflexivity. Qed.

Lemma flush_accept title buf depth book :
  (0 <? length buf)%nat = true ->
  flush respond title buf depth book
  = (book ++ [AddChapterCall title (buf ++ footer) depth], [], None).
Proof.
  intros H. unfold flush, AddChapter. now rewrite H, accepts.
Qed.

Lemma scan_end header maxDepth buf depth title book :
  (0 <? length buf)%nat = true ->
  scan respond header maxDepth [] buf depth title book
  = (book ++ [AddChapterCall title buf depth], None).
Proof. intros H. cbn [scan]. now rewrite H. Qed.

(** C1.  For a document whose body lines are the heading A of level 1,
    p1, the heading A.1 of level 2, p2, the heading B of level 1 and p3,
    whatever its Envelope, [addChaptersToBook] with [maxDepth = 2] on an
    accepting container registers exactly three chapters, in this order:
    A of depth 1 containing the line p1, A.1 of depth 2 containing the
    line p2, and B of depth 1 containing the line p3. *)
Theorem scenario_three_chapters (book : Epub) (fp : FileProvider)
        (f : ReadCloser) (pro : list (list ascii)) (b : list ascii) :
  OpenFile fp (str "book.html") = Ok f ->
  Forall (fun l => MatchString reBody l = false) pro ->
  MatchString reBody b = true ->
  ReadLines f
  = pro ++ b :: map str ["<h1>A</h1>"; "p1"; "<h2>A.1</h2>"; "p2";
                         "<h1>B</h1>"; "p3"]%string ->
  let env := text (pro ++ [b]) in
  let r := addChaptersToBook respond book fp 2 in
  let c1 := {| ch_title := str "A"; ch_depth := 1;
               ch_content :=
                 env ++ text (map str ["<h1>A</h1>"; "p1"]%string)
                     ++ footer |} in
  let c2 := {| ch_title := str "A.1"; ch_depth := 2;
               ch_content :=
                 env ++ text (map str ["<h2>A.1</h2>"; "p2"]%string)
                     ++ footer |} in
  let c3 := {| ch_title := str "B"; ch_depth := 1;
               ch_content :=
                 env ++ text (map str ["<h1>B</h1>"; "p3"]%string) |} in
  snd r = None
  /\ chapters (fst r) = chapters book ++ [c1; c2; c3]
  /\ has_line (str "p1") (ch_content c1)
  /\ has_line (str "p2") (ch_content c2)
  /\ has_line (str "p3") (ch_content c3).
Proof.
  intros Hf Hpro Hb Hlines env r c1 c2 c3.
  assert (E : r = (book ++ [AddChapterCall (str "A") (ch_content c1) 1;
                            AddChapterCall (str "A.1") (ch_content c2) 2;
                            AddChapterCall (str "B") (ch_content c3) 1],
                   None)).
  { unfold r, addChaptersToBook. rewrite Hf, Hlines.
    rewrite (read_header_app pro b _ [] Hpro Hb). cbn [app map].
    fold env.
    rewrite scan_boundary by reflexivity. rewrite flush_empty.
    rewrite scan_plain by reflexivity.
    rewrite scan_boundary by reflexivity.
    rewrite flush_accept by apply line_nonempty.
    rewrite scan_plain by reflexivity.
    rewrite scan_boundary by reflexivity.
    rewrite flush_accept by apply line_nonempty.
    rewrite scan_plain by reflexivity.
    rewrite scan_end by apply line_nonempty.
    rewrite <- !app_assoc. cbn [app].
    unfold c1, c2, c3, text. cbn [ch_content map concat app fst snd].
    change (fst (checkNewChapter (str "<h1>A</h1>"))) with 1%Z.
    change (snd (checkNewChapter (str "<h1>A</h1>"))) with (str "A").
    change (fst (checkNewChapter (str "<h2>A.1</h2>"))) with 2%Z.
    change (snd (checkNewChapter (str "<h2>A.1</h2>"))) with (str "A.1").
    change (fst (checkNewChapter (str "<h1>B</h1>"))) with 1%Z.
    change (snd (checkNewChapter (str "<h1>B</h1>"))) with (str "B").
    rewrite <- !app_assoc. reflexivity. }
  rewrite E. cbn [fst snd]. split; [reflexivity|]. split.
  - rewrite chapters_app. reflexivity.
  - unfold c1, c2, c3. cbn [ch_content]. repeat split.
    + exists (env ++ str "<h1>A</h1>" ++ [nl]), footer.
      unfold text. cbn [map concat]. now rewrite <- !app_assoc.
    + exists (env ++ str "<h2>A.1</h2>" ++ [nl]), footer.
      unfold text. cbn [map concat]. now rewrite <- !app_assoc.
    + exists (env ++ str "<h1>B</h1>" ++ [nl]), [].
      unfold text. cbn [map concat]. now rewrite <- !app_assoc.
Qed.

End AcceptingContainer.

Lemma begins_with_app (pre s : list ascii) : begins_with pre (pre ++ s) = true.
Proof.
  induction pre as [|a pre IH]; simpl; [reflexivity|].
  now rewrite Ascii.eqb_refl, IH.
Qed.

Lemma begins_with_iff (pre s : list ascii) :
  begins_with pre s = true <-> exists t, s = pre ++ t.
Proof.
  split.
  - revert s. induction pre as [|a pre IH]; intros s H; simpl in *.
    + now exists s.
    + destruct s as [|b s]; [discriminate|].
      apply andb_true_iff in H. destruct H as [E H].
      apply Ascii.eqb_eq in E. subst b.
      destruct (IH s H) as [t ->]. now exists t.
  - intros [t ->]. apply begins_with_app.
Qed.

Lemma begins_with_grow (pre s t : list ascii) :
  begins_with pre s = true -> begins_with pre (s ++ t) = true.
Proof.
  rewrite !begins_with_iff. intros [u ->]. exists (u ++ t).
  now rewrite app_assoc.
Qed.

Section Envelopes.

Variable respond : Epub -> call -> option error.
Variables (header : list ascii) (maxDepth : Z).

(** Once the buffer starts with the Envelope, so does every chapter
    registered from then on. *)
Lemma scan_enveloped ls :
  forall buf depth title book,
    begins_with header buf = true ->
    exists new,
      chapters (fst (scan respond header maxDepth ls buf depth title book))
      = chapters book ++ new
      /\ Forall (enveloped header) new.
Proof.
  induction ls as [|l ls IH]; intros buf depth title book Hb.
  - cbn [scan]. destruct (0 <? length buf)%nat.
    + exists [ {| ch_title := title; ch_depth := depth; ch_content := buf |} ].
      split; [cbn; now rewrite chapters_app|].
      constructor; [exact Hb | constructor].
    + exists []. split; [now rewrite app_nil_r | constructor].
  - destruct (is_boundary maxDepth l) eqn:B.
    + rewrite (scan_boundary _ _ _ _ _ _ _ _ _ B). unfold flush.
      destruct (0 <? length buf)%nat.
      * cbn [AddChapter].
        set (c := {| ch_title := title; ch_depth := depth;
                     ch_content := buf ++ footer |}).
        assert (Hc : enveloped header c) by (now apply begins_with_grow).
        destruct (respond book _) as [e|].
        -- exists [c]. split; [cbn; now rewrite chapters_app|].
           now constructor.
        -- destruct (IH (([] ++ header) ++ l ++ [nl])
                        (fst (checkNewChapter l)) (snd (checkNewChapter l))
                        (book ++ [AddChapterCall title (buf ++ footer) depth]))
             as (new & Hn & Hall).
           { cbn [app]. apply begins_with_app. }
           exists (c :: new). split; [|now constructor].
           rewrite Hn, chapters_app. cbn. now rewrite <- app_assoc.
      * apply IH. now do 2 apply begins_with_grow.
    + rewrite (scan_plain _ _ _ _ _ _ _ _ _ B). apply IH.
      now apply begins_with_grow.
Qed.

(** From any buffer, every chapter registered after the first one starts
    with the Envelope. *)
Lemma scan_enveloped_after_first ls :
  forall buf depth title book,
    exists new,
      chapters (fst (scan respond header maxDepth ls buf depth title book))
      = chapters book ++ new
      /\ Forall (enveloped header) (tl new).
Proof.
  induction ls as [|l ls IH]; intros buf depth title book.
  - cbn [scan]. destruct (0 <? length buf)%nat.
    + exists [ {| ch_title := title; ch_depth := depth; ch_content := buf |} ].
      split; [cbn; now rewrite chapters_app | constructor].
    + exists []. split; [now rewrite app_nil_r | constructor].
  - destruct (is_boundary maxDepth l) eqn:B.
    + rewrite (scan_boundary _ _ _ _ _ _ _ _ _ B). unfold flush.
      destruct (0 <? length buf)%nat eqn:E.
      * cbn [AddChapter].
        set (c := {| ch_title := title; ch_depth := depth;
                     ch_content := buf ++ footer |}).
        destruct (respond book _) as [e|].
        -- exists [c]. split; [cbn; now rewrite chapters_app | constructor].
        -- destruct (scan_enveloped ls (([] ++ header) ++ l ++ [nl])
                        (fst (checkNewChapter l)) (snd (checkNewChapter l))
                        (book ++ [AddChapterCall title (buf ++ footer) depth]))
             as (new & Hn & Hall).
           { cbn [app]. apply begins_with_app. }
           exists (c :: new). split; [|exact Hall].
           rewrite Hn, chapters_app. cbn. now rewrite <- app_assoc.
      * destruct (scan_enveloped ls ((buf ++ header) ++ l ++ [nl])
                        (fst (checkNewChapter l)) (snd (checkNewChapter l))
                        book) as (new & Hn & Hall).
        { apply Nat.ltb_ge in E. destruct buf; [|simpl in E; lia].
          cbn [app]. apply begins_with_app. }
        exists new. split; [exact Hn|]. destruct new; [constructor|].
        now inversion Hall.
    + rewrite (scan_plain _ _ _ _ _ _ _ _ _ B). apply IH.
Qed.

End Envelopes.

Section LinesKept.

Variable respond : Epub -> call -> option error.
Hypothesis accepts : forall book c, respond book c = None.
Variables (header : list ascii) (maxDepth : Z).

(** On an accepting container the second loop loses and repeats nothing:
    what the registered chapters hold, between the Envelope copies and the
    closing tags written by the loop, is the text in the buffer followed
    by the remaining lines. *)
Lemma scan_keeps_lines ls :
  forall buf pre seg0 depth title book,
    buf = pre ++ seg0 -> pre = [] \/ pre = header ->
    exists new segs,
      scan respond header maxDepth ls buf depth title book
      = (fst (scan respond header maxDepth ls buf depth title book), None)
      /\ chapters (fst (scan respond header maxDepth ls buf depth title book))
         = chapters book ++ new
      /\ Forall2 (wraps header) new segs
      /\ concat segs = seg0 ++ text ls.
Proof.
  induction ls as [|l ls IH]; intros buf pre seg0 depth title book Hbuf Hpre.
  - cbn [scan]. destruct (0 <? length buf)%nat eqn:E.
    + exists [ {| ch_title := title; ch_depth := depth; ch_content := buf |} ],
             [seg0].
      split; [reflexivity|]. split; [cbn; now rewrite chapters_app|].
      split; [|reflexivity].
      constructor; [|constructor]. exists pre, [].
      cbn. rewrite app_nil_r. auto.
    + exists [], []. apply Nat.ltb_ge in E.
      destruct buf; [|simpl in E; lia].
      symmetry in Hbuf. apply app_eq_nil in Hbuf. destruct Hbuf as [_ ->].
      split; [reflexivity|]. split; [now rewrite app_nil_r|].
      split; [constructor | reflexivity].
  - destruct (is_boundary maxDepth l) eqn:B.
    + rewrite (scan_boundary _ _ _ _ _ _ _ _ _ B).
      destruct (0 <? length buf)%nat eqn:E.
      * rewrite (flush_accept respond accepts _ _ _ _ E).
        destruct (IH (([] ++ header) ++ l ++ [nl]) header (l ++ [nl])
                     (fst (checkNewChapter l)) (snd (checkNewChapter l))
                     (book ++ [AddChapterCall title (buf ++ footer) depth]))
          as (new & segs & Hr & Hn & Hw & Hc); [reflexivity | now right|].
        exists ({| ch_title := title; ch_depth := depth;
                   ch_content := buf ++ footer |} :: new), (seg0 :: segs).
        split; [exact Hr|]. split.
        { rewrite Hn, chapters_app. cbn. now rewrite <- app_assoc. }
        split.
        { constructor; [|exact Hw]. exists pre, footer. cbn.
          rewrite Hbuf, <- app_assoc. auto. }
        cbn [concat]. now rewrite Hc, text_cons.
      * apply Nat.ltb_ge in E. destruct buf; [|simpl in E; lia].
        symmetry in Hbuf. apply app_eq_nil in Hbuf. destruct Hbuf as [_ ->].
        rewrite flush_empty.
        destruct (IH (([] ++ header) ++ l ++ [nl]) header (l ++ [nl])
                     (fst (checkNewChapter l)) (snd (checkNewChapter l)) book)
          as (new & segs & Hr & Hn & Hw & Hc); [reflexivity | now right|].
        exists new, segs.
        split; [exact Hr|]. split; [exact Hn|]. split; [exact Hw|].
        now rewrite Hc, text_cons.
    + rewrite (scan_plain _ _ _ _ _ _ _ _ _ B).
      destruct (IH (buf ++ l ++ [nl]) pre (seg0 ++ l ++ [nl])
                   depth title book)
        as (new & segs & Hr & Hn & Hw & Hc);
        [rewrite Hbuf; now rewrite <- app_assoc | exact Hpre|].
      exists new, segs.
      split; [exact Hr|]. split; [exact Hn|]. split; [exact Hw|].
      rewrite Hc, text_cons. now rewrite <- !app_assoc.
Qed.

End LinesKept.

Lemma later_chapters_enveloped respond (book : Epub) (fp : FileProvider)
      (maxDepth : Z) (f : ReadCloser) (env : list ascii) :
  OpenFile fp (str "book.html") = Ok f ->
  Envelope (ReadLines f) = Some env ->
  exists new,
    chapters (fst (addChaptersToBook respond book fp maxDepth))
    = chapters book ++ new
    /\ Forall (fun c => begins_with env (ch_content c) = true) (tl new).
Proof.
  intros Hf He. unfold addChaptersToBook. rewrite Hf.
  unfold Envelope in He.
  destruct (read_header (ReadLines f) []) as [[header rest]|e];
    [|discriminate He].
  injection He as ->. apply scan_enveloped_after_first.
Qed.

Lemma body_lines_kept respond (book : Epub) (fp : FileProvider)
      (maxDepth : Z) (f : ReadCloser) (env : list ascii) :
  (forall bk c, respond bk c = None) ->
  OpenFile fp (str "book.html") = Ok f ->
  Envelope (ReadLines f) = Some env ->
  exists new segs,
    snd (addChaptersToBook respond book fp maxDepth) = None
    /\ chapters (fst (addChaptersToBook respond book fp maxDepth))
       = chapters book ++ new
    /\ Forall2 (wraps env) new segs
    /\ concat segs = text (body_lines (ReadLines f)).
Proof.
  intros Ha Hf He. unfold addChaptersToBook, body_lines. rewrite Hf.
  unfold Envelope in He.
  destruct (read_header (ReadLines f) []) as [[header rest]|e];
    [|discriminate He].
  injection He as ->.
  destruct (scan_keeps_lines respond Ha env maxDepth rest [] [] [] 1%Z []
                             book eq_refl (or_introl eq_refl))
    as (new & segs & Hr & Hn & Hw & Hc).
  exists new, segs. rewrite Hr at 1. cbn [snd]. auto.
Qed.

(** C2.  On the document with the lines html, body, intro, a heading A of
    level 1 and p1, the first chapter registered is the untitled one that
    holds the line intro, and its content does not begin with the
    Envelope: it is the line intro followed by the closing tags. *)
Theorem first_chapter_lacks_envelope :
  let doc := ["<html>"; "<body>"; "intro"; "<h1>A</h1>"; "p1"]%string in
  let fp := zip_of [zip_entry "book.html" (file_of_lines doc)] in
  let env := text (map str ["<html>"; "<body>"]%string) in
  let c1 := {| ch_title := []; ch_depth := 1;
               ch_content := text [str "intro"] ++ footer |} in
  let c2 := {| ch_title := str "A"; ch_depth := 1;
               ch_content :=
                 env ++ text (map str ["<h1>A</h1>"; "p1"]%string) |} in
  Envelope (map str doc) = Some env
  /\ addChaptersToBook accept_all [] fp 1
     = ([AddChapterCall (ch_title c1) (ch_content c1) (ch_depth c1);
         AddChapterCall (ch_title c2) (ch_content c2) (ch_depth c2)], None)
  /\ begins_with env (ch_content c1) = false.
Proof. vm_compute. repeat split. Qed.

(** C4.  On the document with the lines body, body, x the Envelope is the
    first line, the body lines are body and x, and the only chapter
    registered holds the two body lines with no Envelope before them:
    removing the Envelope and the closing tags from the chapter leaves the
    line x alone, which is not the text of the body lines. *)
Theorem envelope_strip_loses_body_line :
  let doc := map str ["<body>"; "<body>"; "x"]%string in
  let fp := zip_of [zip_entry "book.html"
                      (file_of_lines ["<body>"; "<body>"; "x"]%string)] in
  let env := text [str "<body>"] in
  let r := addChaptersToBook accept_all [] fp 1 in
  Envelope doc = Some env
  /\ body_lines doc = map str ["<body>"; "x"]%string
  /\ chapters (fst r)
     = [ {| ch_title := []; ch_depth := 1;
            ch_content := text (map str ["<body>"; "x"]%string) |} ]
  /\ concat (map (payload env) (chapters (fst r))) = text [str "x"]
  /\ concat (map (payload env) (chapters (fst r))) <> text (body_lines doc).
Proof. vm_compute. repeat split. discriminate. Qed.

(** Whatever the container answers, the code after the loop returns no
    error. *)
Lemma scan_end_returns_nil respond header maxDepth buf depth title book :
  snd (scan respond header maxDepth [] buf depth title book) = None.
Proof. cbn [scan]. now destruct (0 <? length buf)%nat. Qed.

(** C6.  When the container refuses the chapter registered at the end of
    input, [addChaptersToBook] still returns no error, whereas the same
    refusal met at a chapter boundary is returned.  The same holds for a
    last chapter deeper than the container allows. *)
Theorem final_chapter_error_is_dropped :
  let last_only :=
      zip_of [zip_entry "book.html"
                (file_of_lines ["<body>"; "<h1>A</h1>"; "p1"]%string)] in
  let mid_stream :=
      zip_of [zip_entry "book.html"
                (file_of_lines ["<body>"; "<h1>A</h1>"; "p1";
                                "<h1>B</h1>"; "p2"]%string)] in
  let deep :=
      zip_of [zip_entry "book.html"
                (file_of_lines ["<body>"; "<h2>A</h2>"; "p1"]%string)] in
  let a := AddChapterCall (str "A")
             (text (map str ["<body>"; "<h1>A</h1>"; "p1"]%string)) 1 in
  let a2 := AddChapterCall (str "A")
             (text (map str ["<body>"; "<h2>A</h2>"; "p1"]%string)) 2 in
  refuse_chapters [] a = Some (ErrOther "chapter refused")
  /\ addChaptersToBook refuse_chapters [] last_only 1 = ([a], None)
  /\ snd (addChaptersToBook refuse_chapters [] mid_stream 1)
     = Some (ErrOther "chapter refused")
  /\ depth_limited 1 [] a2 = Some (ErrOther "DepthExceeded")
  /\ addChaptersToBook (depth_limited 1) [] deep 2 = ([a2], None).
Proof. vm_compute. repeat split. Qed.

(** The pipeline does not stop either: the book is saved after its last
    chapter was refused. *)
Example pipeline_saves_after_refused_chapter :
  run_pipeline refuse_chapters
    (zip_of [zip_entry "book.ini" (file_of_lines []);
             zip_entry "cover.html" (file_of_lines ["cover"]%string);
             zip_entry "book.html"
               (file_of_lines ["<body>"; "<h1>A</h1>"; "p1"]%string)])
  = (Some [SetNameCall []; SetAuthorCall [];
           SetCoverPageCall (str "cover.html") (text [str "cover"]);
           AddChapterCall (str "A")
             (text (map str ["<body>"; "<h1>A</h1>"; "p1"]%string)) 1;
           SaveCall (str "out.epub")], None).
Proof. vm_compute. reflexivity. Qed.

(** ** The cover page *)

Lemma setCoverPage_outcomes (book : Epub) (fp : FileProvider) :
  setCoverPage book fp
  = match OpenFile fp (str "cover.html") with
    | Err e => (book, Some e)
    | Ok f =>
        match ReadAll f with
        | Ok data => (book ++ [SetCoverPageCall (str "cover.html") data], None)
        | Err _ => (book, None)
        end
    end.
Proof.
  unfold setCoverPage, SetCoverPage.
  destruct (OpenFile fp (str "cover.html")) as [f|e]; [|reflexivity].
  now destruct (ReadAll f).
Qed.

(** C7.  When the cover entry opens but its content cannot be read,
    [setCoverPage] registers no cover and returns no error, and the
    pipeline goes on: the chapters are added and the book is saved.  When
    the entry cannot be opened the error is returned, and when it is read
    the cover is registered. *)
Theorem cover_read_error_is_dropped :
  let ini := zip_entry "book.ini" (file_of_lines []) in
  let html := zip_entry "book.html"
                (file_of_lines ["<body>"; "<h1>A</h1>"]%string) in
  let bad := zip_of [ini; zip_entry "cover.html" unreadable_file; html] in
  let good := zip_of [ini; zip_entry "cover.html"
                             (file_of_lines ["cover"]%string); html] in
  let none := zip_of [ini; html] in
  setCoverPage [] bad = ([], None)
  /\ run_pipeline accept_all bad
     = (Some [SetNameCall []; SetAuthorCall [];
              AddChapterCall (str "A")
                (text (map str ["<body>"; "<h1>A</h1>"]%string)) 1;
              SaveCall (str "out.epub")], None)
  /\ setCoverPage [] none = ([], Some ErrNotExist)
  /\ run_pipeline accept_all none
     = (Some [SetNameCall []; SetAuthorCall []], Some ErrNotExist)
  /\ setCoverPage [] good
     = ([SetCoverPageCall (str "cover.html") (text [str "cover"])], None).
Proof. vm_compute. repeat split. Qed.

(** ** Source providers *)

(** With a requested path free of capital letters, the archive lookup
    does return the first entry whose name equals it up to letter case. *)
Lemma ZipSource_find_lower {strs : Strings} (files : list zipFile)
      (path : list ascii)
      (before : list zipFile) (f : zipFile) (after : list zipFile) :
  ToLower path = path ->
  files = before ++ f :: after ->
  Forall (fun g => ToLower (Name g) <> ToLower path) before ->
  ToLower (Name f) = ToLower path ->
  ZipSource_find files path = Open f.
Proof.
  intros Hp -> Hb Hf. rewrite Hp in *.
  induction Hb as [|g before Hg _ IH]; simpl.
  - now rewrite Hf, bytes_eqb_refl.
  - destruct (bytes_eqb (ToLower (Name g)) path) eqn:E; [|exact IH].
    apply bytes_eqb_eq in E. contradiction.
Qed.

(** The archive lookup finds nothing for a requested path that has a
    capital letter. *)
Lemma ZipSource_find_capital (files : list zipFile) (path : list ascii) :
  ToLower path <> path ->
  ZipSource_find files path = Err ErrNotExist.
Proof.
  intros Hp. induction files as [|g files IH]; cbn [ZipSource_find];
    [reflexivity|].
  destruct (bytes_eqb (ToLower (Name g)) path) eqn:E; [|exact IH].
  apply bytes_eqb_eq in E. exfalso. apply Hp. rewrite <- E.
  cbn [ToLower ascii_strings]. unfold ascii_ToLower.
  rewrite map_map. apply map_ext. intros c.
  destruct c as [[] [] [] [] [] [] [] []]; reflexivity.
Qed.

(** C5.  An archive whose only entry is named Pic.png does not open the
    requested path Pic.png, nor does an archive holding book.html open the
    requested path Book.html, although each entry name equals the request
    up to letter case; only the stored name is lower-cased, so the entry
    BOOK.HTML is found under the request book.html.  Collecting the assets
    of the first archive fails for that reason. *)
Theorem zip_open_ignores_request_case :
  let f := file_of_lines ["x"]%string in
  ZipSource_OpenFile {| File := [zip_entry "Pic.png" f] |} (str "Pic.png")
  = Err ErrNotExist
  /\ ZipSource_OpenFile {| File := [zip_entry "book.html" f] |}
                        (str "Book.html")
     = Err ErrNotExist
  /\ ZipSource_OpenFile {| File := [zip_entry "BOOK.HTML" f] |}
                        (str "book.html")
     = Ok f
  /\ addFilesToBook accept_all [] (zip_of [zip_entry "Pic.png" f])
     = ([], Some ErrNotExist).
Proof. vm_compute. repeat split. Qed.

(** On a case-sensitive file system the directory lookup distinguishes
    letter case. *)
Example folder_open_is_case_sensitive :
  let f := file_of_lines ["x"]%string in
  let os := flat_os [(str "root/book.html", f)] in
  let fs := NewFolderSource (str "root/") in
  FolderSource_OpenFile os fs (str "book.html") = Ok f
  /\ FolderSource_OpenFile os fs (str "Book.html") = Err ErrNotExist.
Proof. vm_compute. repeat split. Qed.

(** ** Asset collection *)

Lemma ZipProvider_visits {strs : Strings} (zs : ZipSource) :
  visits (ZipProvider zs) (map Name (File zs)).
Proof.
  intros S fn st. cbn. unfold ZipSource_Traverse.
  revert st. induction (File zs) as [|f files IH]; intros st; simpl.
  - reflexivity.
  - destruct (fn (Name f) st) as [st' [e|]]; [reflexivity | apply IH].
Qed.

Lemma FolderProvider_visits (os : OS) (fs : FolderSource) :
  Forall (fun it => wi_err it = None) (os_Walk os (base fs)) ->
  visits (FolderProvider os fs)
         (map (fun it => filepath_Rel os (base fs) (wi_path it))
              (filter (fun it => negb (wi_isDir it)) (os_Walk os (base fs)))).
Proof.
  intros H S fn st. cbn. unfold FolderSource_Traverse.
  revert st. induction H as [|it items Hit _ IH]; intros st; simpl.
  - reflexivity.
  - rewrite Hit. destruct (wi_isDir it); simpl; [apply IH|].
    destruct (fn _ st) as [st' [e|]]; [reflexivity | apply IH].
Qed.

Section Assets.

Context {strs : Strings}.
Variable respond : Epub -> call -> option error.
Variable fp : FileProvider.

Lemma addFiles_traverse_cases (n : list ascii) (book : Epub) :
  (is_reserved (ToLower n) = true
   /\ addFiles_traverse respond fp n book = (book, None))
  \/ (is_reserved (ToLower n) = false
      /\ exists e, addFiles_traverse respond fp n book = (book, Some e))
  \/ (is_reserved (ToLower n) = false
      /\ exists rc data,
          OpenFile fp n = Ok rc /\ ReadAll rc = Ok data
          /\ addFiles_traverse respond fp n book
             = AddFile respond n data book).
Proof.
  unfold addFiles_traverse.
  destruct (is_reserved (ToLower n)); [now left | right].
  destruct (OpenFile fp n) as [rc|e]; [|left; split; [reflexivity|now exists e]].
  destruct (ReadAll rc) as [data|e] eqn:A;
    [|left; split; [reflexivity|now exists e]].
  right. split; [reflexivity|]. now exists rc, data.
Qed.

Lemma visit_addFiles (names : list (list ascii)) :
  forall book,
  exists new,
    assets (fst (visit (addFiles_traverse respond fp) names book))
    = assets book ++ new
    /\ Forall (fun a => In (fst a) names /\ read_from_entry fp a) new
    /\ (snd (visit (addFiles_traverse respond fp) names book) = None ->
        map fst new = filter not_reserved names).
Proof.
  induction names as [|n names IH]; intros book.
  - exists []. cbn. rewrite app_nil_r. repeat split. constructor.
  - change (filter not_reserved (n :: names))
      with (if negb (is_reserved (ToLower n))
            then n :: filter not_reserved names
            else filter not_reserved names).
    cbn [visit].
    destruct (addFiles_traverse_cases n book)
      as [[R ->] | [[R [e ->]] | [R (rc & data & O & A & ->)]]];
      rewrite R; cbn [negb].
    + destruct (IH book) as (new & Hn & Hall & Hs).
      exists new. split; [exact Hn|]. split; [|exact Hs].
      eapply Forall_impl; [|exact Hall]. cbn. intros a [Hin Ha].
      split; [now right | exact Ha].
    + exists []. cbn. rewrite app_nil_r.
      repeat split; [constructor | discriminate].
    + unfold AddFile.
      assert (Hme : In (fst (n, data)) (n :: names)
                    /\ read_from_entry fp (n, data)).
      { split; [now left|]. split; [|now exists rc].
        unfold not_reserved. cbn [fst]. now rewrite R. }
      destruct (respond book (AddFileCall n data)) as [e|].
      * exists [(n, data)]. cbn [fst snd]. rewrite assets_app.
        repeat split; [now constructor | discriminate].
      * destruct (IH (book ++ [AddFileCall n data])) as (new & Hn & Hall & Hs).
        exists ((n, data) :: new). split.
        { rewrite Hn, assets_app. cbn. now rewrite <- app_assoc. }
        split.
        { constructor; [exact Hme|].
          eapply Forall_impl; [|exact Hall]. cbn. intros a [Hin Ha].
          split; [now right | exact Ha]. }
        intros Hnone. cbn [map fst]. f_equal. now apply Hs.
Qed.

(** C9, amended.  Whatever [strings.ToLower] is, and whether the
    enumeration of the source ends well or on an error of its own: an
    entry is handed to [AddFile] only if its lower-cased path differs
    from every reserved name, so that the three reserved entries are
    never registered whatever the letter case of their path; the key is
    the path of an enumerated entry, unchanged, and the bytes are those
    read from what [OpenFile] returns for that path; and when asset
    collection returns no error, the enumeration met no error and the
    registered paths are all the enumerated entries whose lower-cased
    path is not reserved, once for each, in traversal order. *)
Theorem assets_are_unreserved_entries (names : list (list ascii))
        (werr : option error) (book : Epub) :
  traverses fp names werr ->
  exists new,
    assets (fst (addFilesToBook respond book fp)) = assets book ++ new
    /\ Forall (fun a => In (fst a) names /\ not_reserved (fst a) = true
                        /\ exists rc, OpenFile fp (fst a) = Ok rc
                                      /\ ReadAll rc = Ok (snd a)) new
    /\ (snd (addFilesToBook respond book fp) = None ->
        werr = None /\ map fst new = filter not_reserved names).
Proof.
  intros Ht. unfold addFilesToBook. rewrite Ht.
  destruct (visit_addFiles names book) as (new & Hn & Hall & Hs).
  exists new.
  destruct (visit (addFiles_traverse respond fp) names book) as [b [e|]];
    cbn [fst snd] in *.
  - split; [exact Hn|]. split; [exact Hall | discriminate].
  - split; [exact Hn|]. split; [exact Hall|].
    intros ->. split; [reflexivity | now apply Hs].
Qed.

End Assets.

(** An archive enumerates its entry names and meets no error of its
    own. *)
Lemma ZipProvider_traverses {strs : Strings} (zs : ZipSource) :
  traverses (ZipProvider zs) (map Name (File zs)) None.
Proof.
  intros S fn st. rewrite (ZipProvider_visits zs S fn st).
  now destruct (visit fn (map Name (File zs)) st) as [st' [e|]].
Qed.

(** A directory enumerates the files its walk meets before the first
    error of the walk, directories left out, and ends on that error. *)
Lemma FolderProvider_traverses (os : OS) (fs : FolderSource) :
  traverses (FolderProvider os fs)
            (map (fun it => filepath_Rel os (base fs) (wi_path it))
                 (filter (fun it => negb (wi_isDir it))
                         (walk_before_error (os_Walk os (base fs)))))
            (walk_first_error (os_Walk os (base fs))).
Proof.
  intros S fn st. cbn. unfold FolderSource_Traverse.
  revert st. induction (os_Walk os (base fs)) as [|it items IH]; intros st.
  - reflexivity.
  - cbn [walk_items walk_before_error walk_first_error].
    destruct (wi_err it) as [e|]; [reflexivity|].
    cbn [filter]. destruct (wi_isDir it); cbn [negb map visit]; [apply IH|].
    destruct (fn _ st) as [st' [e|]]; [reflexivity | apply IH].
Qed.

(** C9 as stated fails: the archive entry pic.png, which cannot be
    opened, has a lower-cased path different from every reserved name and
    is not registered. *)
Lemma unopenable_entry_is_not_registered :
  ~ (forall p,
        In p (map Name (File unopenable_zip)) ->
        (In p (map fst (assets (fst (addFilesToBook
                                       accept_all []
                                       (ZipProvider unopenable_zip)))))
         <-> is_reserved (ToLower p) = false)).
Proof.
  intros H.
  destruct (H (str "pic.png") (or_introl eq_refl)) as [_ H'].
  exact (H' eq_refl).
Qed.

(** ** Instances *)

(** One heading line, through [checkNewChapter_spec]. *)
Lemma checkNewChapter_spec_witness :
  checkNewChapter (str "<h1>A</h1>") = (1%Z, str "A") /\ 1%Z <> 0%Z.
Proof.
  apply (proj1 (proj1 (checkNewChapter_spec (str "<h1>A</h1>"))
                      1%Z (str "A"))).
  apply (heading_line _ _ _ [] [] [] "h" "h").
  - constructor.
  - constructor.
  - left. reflexivity.
  - left. reflexivity.
  - lia.
  - constructor.
  - repeat constructor. discriminate.
  - reflexivity.
Defined.

(** The scenario with a two-line Envelope. *)
Lemma scenario_three_chapters_witness :
  snd (addChaptersToBook accept_all [] (book_zip scenario_doc) 2) = None
  /\ map ch_title
         (chapters (fst (addChaptersToBook accept_all []
                                           (book_zip scenario_doc) 2)))
     = map str ["A"; "A.1"; "B"]%string.
Proof.
  destruct (scenario_three_chapters
              accept_all (fun _ _ => eq_refl) []
              (book_zip scenario_doc) (file_of_lines scenario_doc)
              [str "<html>"] (str "<body>"))
    as (Hnone & Hch & _).
  - reflexivity.
  - repeat constructor.
  - reflexivity.
  - reflexivity.
  - split; [exact Hnone|]. rewrite Hch. reflexivity.
Defined.

(** A document without a body-open line. *)
Lemma no_body_line_is_fatal_witness :
  addChaptersToBook accept_all [] (book_zip headless_doc) 1 = ([], Some EOF).
Proof.
  apply (no_body_line_is_fatal accept_all [] (book_zip headless_doc) 1
                               (file_of_lines headless_doc)).
  - reflexivity.
  - repeat constructor.
Defined.

(** An archive whose only unreserved entry is a style sheet. *)
Lemma assets_are_unreserved_entries_witness :
  exists new,
    assets (fst (addFilesToBook accept_all [] (ZipProvider mixed_zip)))
    = [] ++ new
    /\ map fst new = [str "style.css"].
Proof.
  destruct (assets_are_unreserved_entries
              accept_all (ZipProvider mixed_zip)
              (map Name (File mixed_zip)) None [])
    as (new & Hn & _ & Hs).
  - apply ZipProvider_traverses.
  - exists new. split; [exact Hn|]. apply Hs. reflexivity.
Defined.

(** The other scenarios of the specification. *)

Example scenario_max_depth_one :
  chapters (fst (addChaptersToBook accept_all [] (book_zip scenario_doc) 1))
  = [ {| ch_title := str "A"; ch_depth := 1;
         ch_content :=
           text (map str ["<html>"; "<body>"; "<h1>A</h1>"; "p1";
                          "<h2>A.1</h2>"; "p2"]%string) ++ footer |};
      {| ch_title := str "B"; ch_depth := 1;
         ch_content :=
           text (map str ["<html>"; "<body>"; "<h1>B</h1>"; "p3"]%string) |} ].
Proof. reflexivity. Qed.

Example heading_detector_samples :
  checkNewChapter (str "  <h1 class=x>A > B</H1> ") = (1%Z, str "A > B")
  /\ checkNewChapter (str "<h3> spaced </h3>") = (3%Z, str " spaced ")
  /\ checkNewChapter (str "<h1>A</h2>") = (0%Z, [])
  /\ checkNewChapter (str "<h1><b>A</b></h1>") = (0%Z, [])
  /\ checkNewChapter (str "<h7>A</h7>") = (0%Z, [])
  /\ checkNewChapter (str "<h1>A</h1>x") = (0%Z, []).
Proof. repeat split. Qed.

Example reBody_samples :
  MatchString reBody (str "  <BoDy class=main>") = true
  /\ MatchString reBody (str "<body> ") = false
  /\ MatchString reBody (str "<html>") = false.
Proof. repeat split. Qed.

(** * Further properties *)

(** ** The heading detector *)

Lemma HeaderMatch_title l d title d' :
  HeaderMatch l d title d' -> Forall (fun c => c <> "<") title.
Proof.
  intros [? ? ? ? ? _ _ _ _ _ _ _ Ht _]. now apply Forall_not_lt.
Qed.

Lemma checkNewChapter_depth_le (l : list ascii) :
  (0 <= fst (checkNewChapter l) <= 6)%Z.
Proof.
  destruct (checkNewChapter_cases l) as [(d & t & M & ->) | [-> _]].
  - pose proof (HeaderMatch_digit _ _ _ _ M) as Hd.
    destruct (is_1to6_level d Hd) as [Hr _]. cbn [fst]. lia.
  - cbn. lia.
Qed.

(** The depth returned by [checkNewChapter] lies between 0 and 6, the
    title holds no opening angle bracket, and depth 0 comes with the
    empty title. *)
Theorem checkNewChapter_range (l : list ascii) :
  (0 <= fst (checkNewChapter l) <= 6)%Z
  /\ Forall (fun c => c <> "<") (snd (checkNewChapter l))
  /\ (fst (checkNewChapter l) = 0%Z -> snd (checkNewChapter l) = []).
Proof.
  destruct (checkNewChapter_cases l) as [(d & t & M & ->) | [-> _]].
  - pose proof (HeaderMatch_digit _ _ _ _ M) as Hd.
    destruct (is_1to6_level d Hd) as [Hr _]. cbn [fst snd].
    split; [lia|]. split; [exact (HeaderMatch_title _ _ _ _ M) | lia].
  - cbn. split; [lia|]. split; [constructor | reflexivity].
Qed.

Lemma checkNewChapter_of_match l d title :
  HeaderMatch l d title d -> checkNewChapter l = (byte_sub d "0", title).
Proof.
  intros M. unfold checkNewChapter, FindStringSubmatch.
  now rewrite (run_reHeader_sound _ _ _ _ M), bytes_eqb_refl.
Qed.

Lemma is_blank_not_gt c : is_blank c = true -> c <> ">".
Proof. intros H ->. discriminate H. Qed.

Lemma HeaderMatch_outer_blanks (ws l ws' : list ascii) d title d' :
  Forall (fun c => is_blank c = true) ws ->
  Forall (fun c => is_blank c = true) ws' ->
  HeaderMatch (ws ++ l ++ ws') d title d' <-> HeaderMatch l d title d'.
Proof.
  intros Hws Hws'. split.
  - intros [lead trail attrs h h' Hl Ht Hh Hh' Hd Hd' Ha Hti E].
    (* the blanks in front *)
    assert (E1 : skip is_blank (ws ++ l ++ ws')
                 = skip is_blank (l ++ ws')).
    { clear E. induction Hws as [|x ws Hx _ IH]; simpl; [reflexivity|].
      now rewrite Hx. }
    rewrite E in E1 at 1. rewrite skip_app in E1 by (assumption || reflexivity).
    (* the blanks behind *)
    set (core := "<" :: h :: d :: attrs ++ ">" :: title
                     ++ "<" :: "/" :: h' :: [d']) in *.
    assert (E2 : taken is_blank (l ++ ws') ++ core ++ ">" :: trail
                 = l ++ ws').
    { rewrite <- (taken_skip is_blank (l ++ ws')) at 2. rewrite <- E1.
      unfold core. cbn [app]. rewrite <- !app_assoc. cbn [app].
      do 5 f_equal. rewrite <- !app_assoc. reflexivity. }
    change (">" :: trail) with ([">"] ++ trail) in E2.
    rewrite !app_assoc in E2. symmetry in E2.
    apply app_eq_app in E2. destruct E2 as [x [[E2 E3] | [E2 E3]]].
    + rewrite E2, <- !app_assoc.
      apply (header_match _ d title d' (taken is_blank (l ++ ws')) x attrs h h');
        try assumption; try apply taken_all.
      * rewrite E3 in Ht. now apply Forall_app in Ht.
      * unfold core. cbn [app]. rewrite <- !app_assoc. cbn [app].
        do 5 f_equal. rewrite <- !app_assoc. reflexivity.
    + destruct x as [|c x].
      * rewrite app_nil_r in E2. cbn [app] in E3. subst ws'.
        rewrite <- E2, <- !app_assoc.
        apply (header_match _ d title d' (taken is_blank (l ++ trail)) []
                            attrs h h');
          try assumption; try apply taken_all; [constructor|].
        unfold core. cbn [app]. rewrite <- !app_assoc. cbn [app].
        do 5 f_equal. rewrite <- !app_assoc. reflexivity.
      * exfalso.
        assert (In ">" ws').
        { destruct (exists_last (l := c :: x)) as (x' & z & Ex);
            [discriminate|].
          rewrite Ex in E2, E3. rewrite app_assoc in E2.
          apply app_inj_tail in E2. destruct E2 as [_ <-].
          rewrite E3, <- app_assoc. apply in_or_app. right. now left. }
        rewrite Forall_forall in Hws'.
        now apply (is_blank_not_gt ">" (Hws' _ H)).
  - intros [lead trail attrs h h' Hl Ht Hh Hh' Hd Hd' Ha Hti ->].
    apply (header_match _ d title d' (ws ++ lead) (trail ++ ws') attrs h h');
      try assumption; try (apply Forall_app; now split).
    repeat first [rewrite <- app_assoc | progress cbn [app]]. reflexivity.
Qed.

(** Blanks in front of a line and behind it do not change what
    [checkNewChapter] returns. *)
Theorem checkNewChapter_ignores_outer_blanks (ws l ws' : list ascii) :
  Forall (fun c => is_blank c = true) ws ->
  Forall (fun c => is_blank c = true) ws' ->
  checkNewChapter (ws ++ l ++ ws') = checkNewChapter l.
Proof.
  intros Hws Hws'.
  destruct (checkNewChapter_cases l) as [(d & t & M & ->) | [-> No]].
  - apply checkNewChapter_of_match.
    now apply (HeaderMatch_outer_blanks ws l ws').
  - destruct (checkNewChapter_cases (ws ++ l ++ ws'))
      as [(d & t & M & _) | [E _]]; [|exact E].
    apply (HeaderMatch_outer_blanks ws l ws') in M; try assumption.
    now destruct (No _ _ M).
Qed.

(** ** The body-open pattern *)

Lemma reBody_match_shape (l : list ascii) :
  MatchString reBody l = true -> BodyOpenLine l.
Proof.
  unfold MatchString, reBody.
  destruct (run _ l [] []) as [caps|] eqn:H; [intros _ | discriminate].
  rewrite run_star_lit in H by reflexivity.
  need_lit H x1 s1 E1.
  need_cls H b s2 Hb. need_cls H o s3 Ho.
  need_cls H d s4 Hd. need_cls H y s5 Hy.
  rewrite run_star_lit in H by reflexivity.
  need_lit H x2 s6 E2.
  destruct s6; [|discriminate H].
  apply (body_open_line l (taken is_blank l) (taken not_gt s5) b o d y);
    try assumption; try apply taken_all.
  - apply Forall_not_gt, taken_all.
  - rewrite <- (taken_skip is_blank l) at 1. rewrite E1. do 6 f_equal.
    rewrite <- (taken_skip not_gt s5) at 1. now rewrite E2.
Qed.

Lemma reBody_shape_matches (l : list ascii) :
  BodyOpenLine l -> MatchString reBody l = true.
Proof.
  unfold MatchString, reBody.
  intros [lead attrs b o d y Hl Hb Ho Hd Hy Ha ->].
  apply Forall_not_gt in Ha.
  rewrite run_star_lit, skip_app by (assumption || reflexivity).
  rewrite run_lit, Ascii.eqb_refl, !run_cls, Hb, Ho, Hd, Hy.
  rewrite run_star_lit, skip_app by (assumption || reflexivity).
  rewrite run_lit, Ascii.eqb_refl. reflexivity.
Qed.

(** [reBody] matches exactly the lines made of blanks, an opening angle
    bracket, the word body in any letter case, any text without a closing
    angle bracket, and one closing angle bracket at the very end. *)
Theorem reBody_spec (l : list ascii) :
  MatchString reBody l = true <-> BodyOpenLine l.
Proof.
  split; [apply reBody_match_shape | apply reBody_shape_matches].
Qed.

(** A line that opens the body is no heading. *)
Theorem body_open_line_is_no_heading (l : list ascii) :
  MatchString reBody l = true -> checkNewChapter l = (0%Z, []).
Proof.
  intros H. apply reBody_match_shape in H.
  destruct H as [lead attrs b o d y Hl Hb _ _ _ _ ->].
  destruct (checkNewChapter_cases (lead ++ "<" :: b :: o :: d :: y :: attrs ++ [">"]))
    as [(d0 & t & M & _) | [E _]]; [|exact E].
  exfalso.
  destruct M as [lead' trail attrs' h h' Hl' _ Hh _ _ _ _ _ E].
  apply (f_equal (skip is_blank)) in E.
  rewrite !skip_app in E by (assumption || reflexivity).
  injection E as <-. clear - Hb Hh.
  destruct b as [[] [] [] [] [] [] [] []]; discriminate.
Qed.

(** ** The two loops of the segmenter *)

(** The first loop cuts the document in two: the Envelope is the text of
    the lines through the first one that opens the body, the body lines
    are the lines after it, and nothing is lost in between. *)
Theorem envelope_and_body_partition (doc : list (list ascii))
        (env : list ascii) :
  Envelope doc = Some env ->
  env ++ text (body_lines doc) = text doc
  /\ exists pro b,
      doc = pro ++ b :: body_lines doc
      /\ Forall (fun l => MatchString reBody l = false) pro
      /\ MatchString reBody b = true
      /\ env = text (pro ++ [b]).
Proof.
  unfold Envelope, body_lines. intros He.
  destruct (read_header_split doc [])
    as [[_ E] | (pro & b & rest & -> & Hp & Hb & E)]; rewrite E in *.
  - discriminate He.
  - injection He as <-. cbn [app]. split.
    + unfold text. rewrite !map_app, !concat_app. cbn [map concat].
      now rewrite app_nil_r, <- app_assoc.
    + now exists pro, b.
Qed.

Section SegmenterFacts.

Variable respond : Epub -> call -> option error.
Variables (header : list ascii) (maxDepth : Z).

Lemma is_boundary_depth (l : list ascii) :
  is_boundary maxDepth l = true ->
  (1 <= fst (checkNewChapter l) <= 6)%Z
  /\ (fst (checkNewChapter l) <= maxDepth)%Z.
Proof.
  unfold is_boundary. pose proof (checkNewChapter_depth_le l) as Hr.
  destruct (checkNewChapter l) as [nd nt]. cbn [fst] in *.
  intros H. apply andb_true_iff in H. destruct H as [H1 H2].
  apply Z.ltb_lt in H1. apply Z.leb_le in H2. lia.
Qed.

(** The second loop only ever calls [AddChapter]. *)
Lemma scan_appends ls :
  forall buf depth title book,
  exists cs,
    fst (scan respond header maxDepth ls buf depth title book) = book ++ cs
    /\ forallb is_chapter_call cs = true.
Proof.
  induction ls as [|l ls IH]; intros buf depth title book.
  - cbn [scan]. destruct (0 <? length buf)%nat.
    + now exists [AddChapterCall title buf depth].
    + exists []. now rewrite app_nil_r.
  - destruct (is_boundary maxDepth l) eqn:B.
    + rewrite (scan_boundary _ _ _ _ _ _ _ _ _ B). unfold flush.
      destruct (0 <? length buf)%nat; [|apply IH].
      cbn [AddChapter]. destruct (respond book _) as [e|].
      * now exists [AddChapterCall title (buf ++ footer) depth].
      * destruct (IH (([] ++ header) ++ l ++ [nl])
                     (fst (checkNewChapter l)) (snd (checkNewChapter l))
                     (book ++ [AddChapterCall title (buf ++ footer) depth]))
          as (cs & -> & Hcs).
        exists (AddChapterCall title (buf ++ footer) depth :: cs).
        now rewrite <- app_assoc.
    + rewrite (scan_plain _ _ _ _ _ _ _ _ _ B). apply IH.
Qed.

Lemma scan_depths ls :
  forall buf depth title book,
    (1 <= depth <= 6)%Z -> (depth <= Z.max 1 maxDepth)%Z ->
    exists new,
      chapters (fst (scan respond header maxDepth ls buf depth title book))
      = chapters book ++ new
      /\ Forall (fun c => (1 <= ch_depth c <= 6)%Z
                          /\ (ch_depth c <= Z.max 1 maxDepth)%Z) new.
Proof.
  induction ls as [|l ls IH]; intros buf depth title book Hd Hm.
  - cbn [scan]. destruct (0 <? length buf)%nat.
    + exists [ {| ch_title := title; ch_depth := depth; ch_content := buf |} ].
      split; [cbn; now rewrite chapters_app|]. now repeat constructor.
    + exists []. split; [now rewrite app_nil_r | constructor].
  - destruct (is_boundary maxDepth l) eqn:B.
    + rewrite (scan_boundary _ _ _ _ _ _ _ _ _ B).
      destruct (is_boundary_depth l B) as [Hr Hle].
      unfold flush. destruct (0 <? length buf)%nat.
      * cbn [AddChapter]. destruct (respond book _) as [e|].
        -- exists [ {| ch_title := title; ch_depth := depth;
                       ch_content := buf ++ footer |} ].
           split; [cbn; now rewrite chapters_app|]. now repeat constructor.
        -- destruct (IH (([] ++ header) ++ l ++ [nl])
                        (fst (checkNewChapter l)) (snd (checkNewChapter l))
                        (book ++ [AddChapterCall title (buf ++ footer) depth]))
             as (new & Hn & Hall); [exact Hr | lia|].
           exists ({| ch_title := title; ch_depth := depth;
                      ch_content := buf ++ footer |} :: new).
           split; [|constructor; [now split | exact Hall]].
           rewrite Hn, chapters_app. cbn. now rewrite <- app_assoc.
      * apply IH; [exact Hr | lia].
    + rewrite (scan_plain _ _ _ _ _ _ _ _ _ B). now apply IH.
Qed.

(** Lines that are no boundary only grow the buffer. *)
Lemma scan_plain_lines ls :
  forall buf depth title book,
    Forall (fun l => is_boundary maxDepth l = false) ls ->
    scan respond header maxDepth ls buf depth title book
    = scan respond header maxDepth [] (buf ++ text ls) depth title book.
Proof.
  induction ls as [|l ls IH]; intros buf depth title book H.
  - unfold text. cbn [map concat]. now rewrite app_nil_r.
  - inversion H as [|? ? Hl Hls]; subst.
    rewrite (scan_plain _ _ _ _ _ _ _ _ _ Hl), (IH _ _ _ _ Hls).
    rewrite text_cons. now rewrite <- !app_assoc.
Qed.

(** A returned error is the answer to the last call made. *)
Lemma scan_error ls :
  forall buf depth title book e,
    snd (scan respond header maxDepth ls buf depth title book) = Some e ->
    exists cs c,
      fst (scan respond header maxDepth ls buf depth title book)
      = book ++ cs ++ [c]
      /\ is_chapter_call c = true
      /\ respond (book ++ cs) c = Some e.
Proof.
  induction ls as [|l ls IH]; intros buf depth title book e.
  - cbn [scan]. destruct (0 <? length buf)%nat; discriminate.
  - destruct (is_boundary maxDepth l) eqn:B.
    + rewrite (scan_boundary _ _ _ _ _ _ _ _ _ B). unfold flush.
      destruct (0 <? length buf)%nat; [|apply IH].
      cbn [AddChapter].
      destruct (respond book _) as [e'|] eqn:R.
      * cbn [fst snd]. intros [= <-].
        exists [], (AddChapterCall title (buf ++ footer) depth).
        rewrite app_nil_r. now repeat split.
      * intros H. apply IH in H. destruct H as (cs & c & -> & Hc & Hr).
        exists (AddChapterCall title (buf ++ footer) depth :: cs), c.
        rewrite <- !app_assoc. cbn [app]. repeat split; [exact Hc|].
        rewrite <- Hr. f_equal. now rewrite <- app_assoc.
    + rewrite (scan_plain _ _ _ _ _ _ _ _ _ B). apply IH.
Qed.

(** Chapters registered at a boundary end with the closing tags; the one
    registered at the end of input ends with the newline of its last
    line, and it is there whenever the loop ends without an error on a
    buffer that is not empty. *)
Lemma scan_footers ls :
  forall buf depth title book,
    (buf = [] \/ exists x, buf = x ++ [nl]) ->
    exists mids final,
      chapters (fst (scan respond header maxDepth ls buf depth title book))
      = chapters book ++ mids ++ final
      /\ Forall (fun c => exists x, ch_content c = x ++ footer) mids
      /\ ((final = []
           /\ (snd (scan respond header maxDepth ls buf depth title book)
               = None -> mids = [] /\ buf = []))
          \/ (exists c x,
                 final = [c] /\ ch_content c = x ++ [nl]
                 /\ snd (scan respond header maxDepth ls buf depth title book)
                    = None)).
Proof.
  induction ls as [|l ls IH]; intros buf depth title book Hb.
  - cbn [scan]. destruct (0 <? length buf)%nat eqn:E.
    + exists [], [ {| ch_title := title; ch_depth := depth;
                      ch_content := buf |} ].
      split; [cbn; now rewrite chapters_app|]. split; [constructor|].
      right. destruct Hb as [-> | [x ->]]; [discriminate E|].
      now exists {| ch_title := title; ch_depth := depth;
                    ch_content := x ++ [nl] |}, x.
    + exists [], []. split; [now rewrite !app_nil_r|].
      split; [constructor|]. left. split; [reflexivity|]. intros _.
      split; [reflexivity|]. apply Nat.ltb_ge in E.
      destruct buf; [reflexivity | simpl in E; lia].
  - assert (Hnl : forall b0 : list ascii,
               b0 ++ l ++ [nl] = [] \/ exists x, b0 ++ l ++ [nl] = x ++ [nl]).
    { intros b0. right. exists (b0 ++ l). now rewrite <- app_assoc. }
    assert (Hne : forall b0 : list ascii, b0 ++ l ++ [nl] <> []).
    { intros b0 H. apply app_eq_nil in H. destruct H as [_ H].
      apply app_eq_nil in H. destruct H as [_ H]. discriminate H. }
    destruct (is_boundary maxDepth l) eqn:B.
    + rewrite (scan_boundary _ _ _ _ _ _ _ _ _ B). unfold flush.
      destruct (0 <? length buf)%nat eqn:E.
      * cbn [AddChapter].
        set (c := {| ch_title := title; ch_depth := depth;
                     ch_content := buf ++ footer |}).
        assert (Hc : exists x, ch_content c = x ++ footer) by now exists buf.
        destruct (respond book _) as [e|].
        -- exists [c], []. split; [cbn; now rewrite chapters_app|].
           split; [now constructor|]. left. split; [reflexivity|].
           discriminate.
        -- destruct (IH (([] ++ header) ++ l ++ [nl])
                        (fst (checkNewChapter l)) (snd (checkNewChapter l))
                        (book ++ [AddChapterCall title (buf ++ footer) depth])
                        (Hnl _))
             as (mids & final & Hn & Hm & Hf).
           exists (c :: mids), final.
           split; [rewrite Hn, chapters_app; cbn; now rewrite <- !app_assoc|].
           split; [now constructor|].
           destruct Hf as [[-> Hf] | Hf]; [left | now right].
           split; [reflexivity|]. intros Hr.
           destruct (Hf Hr) as [_ Hbuf]. now destruct (Hne _ Hbuf).
      * destruct (IH ((buf ++ header) ++ l ++ [nl])
                     (fst (checkNewChapter l)) (snd (checkNewChapter l))
                     book (Hnl _))
          as (mids & final & Hn & Hm & Hf).
        exists mids, final. split; [exact Hn|]. split; [exact Hm|].
        destruct Hf as [[-> Hf] | Hf]; [left | now right].
        split; [reflexivity|]. intros Hr.
        destruct (Hf Hr) as [_ Hbuf]. now destruct (Hne _ Hbuf).
    + rewrite (scan_plain _ _ _ _ _ _ _ _ _ B).
      destruct (IH (buf ++ l ++ [nl]) depth title book (Hnl _))
        as (mids & final & Hn & Hm & Hf).
      exists mids, final. split; [exact Hn|]. split; [exact Hm|].
      destruct Hf as [[-> Hf] | Hf]; [left | now right].
      split; [reflexivity|]. intros Hr.
      destruct (Hf Hr) as [_ Hbuf]. now destruct (Hne _ Hbuf).
Qed.

End SegmenterFacts.

Lemma addChaptersToBook_scan respond (book : Epub) (fp : FileProvider)
      (maxDepth : Z) (f : ReadCloser) (env : list ascii) :
  OpenFile fp (str "book.html") = Ok f ->
  Envelope (ReadLines f) = Some env ->
  addChaptersToBook respond book fp maxDepth
  = scan respond env maxDepth (body_lines (ReadLines f)) [] 1%Z [] book.
Proof.
  intros Hf He. unfold addChaptersToBook, body_lines. rewrite Hf.
  unfold Envelope in He.
  destruct (read_header (ReadLines f) []) as [[header rest]|e];
    [|discriminate He].
  now injection He as ->.
Qed.

(** Whatever the document, the depth limit and the container, every
    chapter registered by [addChaptersToBook] has a depth between 1 and
    6 that does not exceed the depth limit, or is 1 when the limit is
    below 1. *)
Theorem chapter_depths_bounded respond (book : Epub) (fp : FileProvider)
        (maxDepth : Z) :
  exists new,
    chapters (fst (addChaptersToBook respond book fp maxDepth))
    = chapters book ++ new
    /\ Forall (fun c => (1 <= ch_depth c <= 6)%Z
                        /\ (ch_depth c <= Z.max 1 maxDepth)%Z) new.
Proof.
  unfold addChaptersToBook.
  destruct (OpenFile fp (str "book.html")) as [f|e];
    [|exists []; split; [now rewrite app_nil_r | constructor]].
  destruct (read_header (ReadLines f) []) as [[header rest]|e];
    [|exists []; split; [now rewrite app_nil_r | constructor]].
  apply scan_depths; lia.
Qed.

(** [addChaptersToBook] makes no call on the book other than
    [AddChapter], keeps the calls made before, and the chapters it adds
    have a bounded depth. *)
Lemma addChaptersToBook_calls respond (book : Epub) (fp : FileProvider)
      (maxDepth : Z) :
  exists cs,
    fst (addChaptersToBook respond book fp maxDepth) = book ++ cs
    /\ forallb is_chapter_call cs = true
    /\ Forall (fun c => (1 <= ch_depth c <= 6)%Z
                        /\ (ch_depth c <= Z.max 1 maxDepth)%Z) (chapters cs).
Proof.
  unfold addChaptersToBook.
  destruct (OpenFile fp (str "book.html")) as [f|e];
    [|exists []; rewrite app_nil_r; repeat split; constructor].
  destruct (read_header (ReadLines f) []) as [[header rest]|e];
    [|exists []; rewrite app_nil_r; repeat split; constructor].
  destruct (scan_appends respond header maxDepth rest [] 1%Z [] book)
    as (cs & Ec & Hcs).
  destruct (scan_depths respond header maxDepth rest [] 1%Z [] book)
    as (new & En & Hnew); [lia | lia|].
  exists cs. split; [exact Ec|]. split; [exact Hcs|].
  rewrite Ec, chapters_app in En. apply app_inv_head in En. now rewrite En.
Qed.

(** A document whose body holds no chapter boundary gives one chapter,
    untitled and of depth 1, whose content is the text of the body lines
    alone, without Envelope and without closing tags; an empty body gives
    no chapter.  No error is returned, whatever the container answers. *)
Theorem body_without_boundary_is_one_chapter respond (book : Epub)
        (fp : FileProvider) (maxDepth : Z) (f : ReadCloser)
        (env : list ascii) :
  OpenFile fp (str "book.html") = Ok f ->
  Envelope (ReadLines f) = Some env ->
  Forall (fun l => is_boundary maxDepth l = false) (body_lines (ReadLines f)) ->
  addChaptersToBook respond book fp maxDepth
  = (match body_lines (ReadLines f) with
     | [] => book
     | _ :: _ =>
         book ++ [AddChapterCall [] (text (body_lines (ReadLines f))) 1]
     end, None).
Proof.
  intros Hf He Hb. rewrite (addChaptersToBook_scan _ _ _ _ _ _ Hf He).
  rewrite (scan_plain_lines _ _ _ _ _ _ _ _ Hb).
  destruct (body_lines (ReadLines f)) as [|l ls]; [reflexivity|].
  assert (E : (0 <? length (text (l :: ls)))%nat = true).
  { rewrite text_cons. apply Nat.ltb_lt. rewrite !length_app. simpl. lia. }
  cbn [app scan]. now rewrite E.
Qed.

(** When the body starts with a chapter boundary, every chapter begins
    with the Envelope. *)
Theorem heading_first_all_enveloped respond (book : Epub)
        (fp : FileProvider) (maxDepth : Z) (f : ReadCloser)
        (env l : list ascii) (ls : list (list ascii)) :
  OpenFile fp (str "book.html") = Ok f ->
  Envelope (ReadLines f) = Some env ->
  body_lines (ReadLines f) = l :: ls ->
  is_boundary maxDepth l = true ->
  exists new,
    chapters (fst (addChaptersToBook respond book fp maxDepth))
    = chapters book ++ new
    /\ Forall (enveloped env) new.
Proof.
  intros Hf He Hb Hl. rewrite (addChaptersToBook_scan _ _ _ _ _ _ Hf He), Hb.
  rewrite (scan_boundary _ _ _ _ _ _ _ _ _ Hl), flush_empty.
  apply scan_enveloped. cbn [app]. apply begins_with_app.
Qed.

(** When [addChaptersToBook] returns an error, either nothing was
    registered, or the error is the answer of the container to the last
    chapter registered: the first refusal at a boundary stops the
    segmenter. *)
Theorem segmenter_error_is_last_answer respond (book : Epub)
        (fp : FileProvider) (maxDepth : Z) (book' : Epub) (e : error) :
  addChaptersToBook respond book fp maxDepth = (book', Some e) ->
  book' = book
  \/ exists cs c,
      book' = book ++ cs ++ [c]
      /\ is_chapter_call c = true
      /\ respond (book ++ cs) c = Some e.
Proof.
  unfold addChaptersToBook.
  destruct (OpenFile fp (str "book.html")) as [f|e0];
    [|intros [= <- _]; now left].
  destruct (read_header (ReadLines f) []) as [[header rest]|e0];
    [|intros [= <- _]; now left].
  intros H. right.
  destruct (scan_error respond header maxDepth rest [] 1%Z [] book e)
    as (cs & c & Hb & Hc & Hr); [now rewrite H|].
  rewrite H in Hb. cbn [fst] in Hb. now exists cs, c.
Qed.

Lemma newline_is_no_footer (x y : list ascii) : x ++ [nl] <> y ++ footer.
Proof.
  change footer with ((tab :: str "</body>" ++ nl :: str "</html") ++ [">"]).
  rewrite app_assoc. intros H. apply app_inj_tail in H.
  destruct H as [_ H]. discriminate H.
Qed.

(** The chapters registered at a boundary all end with the closing
    tags.  When [addChaptersToBook] returns no error and has registered
    a chapter, the last chapter is the one registered at the end of
    input: it ends with the newline of its last line and not with the
    closing tags.  When an error is returned, no such chapter was
    registered. *)
Theorem only_last_chapter_lacks_footer respond (book : Epub)
        (fp : FileProvider) (maxDepth : Z) :
  exists mids final,
    chapters (fst (addChaptersToBook respond book fp maxDepth))
    = chapters book ++ mids ++ final
    /\ Forall (fun c => exists x, ch_content c = x ++ footer) mids
    /\ ((final = []
         /\ (snd (addChaptersToBook respond book fp maxDepth) = None ->
             mids = []))
        \/ (exists c x,
               final = [c] /\ ch_content c = x ++ [nl]
               /\ (forall y, ch_content c <> y ++ footer)
               /\ snd (addChaptersToBook respond book fp maxDepth) = None)).
Proof.
  unfold addChaptersToBook.
  destruct (OpenFile fp (str "book.html")) as [f|e];
    [|exists [], []; rewrite !app_nil_r; split; [reflexivity|];
      split; [constructor | now left]].
  destruct (read_header (ReadLines f) []) as [[header rest]|e];
    [|exists [], []; rewrite !app_nil_r; split; [reflexivity|];
      split; [constructor | now left]].
  destruct (scan_footers respond header maxDepth rest [] 1%Z [] book
                         (or_introl eq_refl))
    as (mids & final & Hn & Hm & Hf).
  exists mids, final. split; [exact Hn|]. split; [exact Hm|].
  destruct Hf as [[-> Hf] | (c & x & -> & Hx & Hr)].
  - left. split; [reflexivity|]. intros Hr. now destruct (Hf Hr).
  - right. exists c, x. split; [reflexivity|]. split; [exact Hx|].
    split; [|exact Hr]. intros y. rewrite Hx. apply newline_is_no_footer.
Qed.

Section Headings.

Variable respond : Epub -> call -> option error.
Hypothesis accepts : forall book c, respond book c = None.
Variables (header : list ascii) (maxDepth : Z).

Lemma scan_headings ls :
  forall buf depth title book,
    (0 <? length buf)%nat = true ->
    exists new,
      chapters (fst (scan respond header maxDepth ls buf depth title book))
      = chapters book ++ new
      /\ map chapter_heading new
         = (title, depth)
             :: map heading_of (filter (is_boundary maxDepth) ls).
Proof.
  induction ls as [|l ls IH]; intros buf depth title book Hb.
  - rewrite (scan_end respond _ _ _ _ _ _ Hb). cbn [fst].
    exists [ {| ch_title := title; ch_depth := depth; ch_content := buf |} ].
    split; [now rewrite chapters_app | reflexivity].
  - cbn [filter]. destruct (is_boundary maxDepth l) eqn:B.
    + rewrite (scan_boundary _ _ _ _ _ _ _ _ _ B).
      rewrite (flush_accept respond accepts _ _ _ _ Hb).
      destruct (IH (([] ++ header) ++ l ++ [nl])
                   (fst (checkNewChapter l)) (snd (checkNewChapter l))
                   (book ++ [AddChapterCall title (buf ++ footer) depth])
                   (line_nonempty _ _))
        as (new & Hn & Hh).
      exists ({| ch_title := title; ch_depth := depth;
                 ch_content := buf ++ footer |} :: new).
      split; [rewrite Hn, chapters_app; cbn; now rewrite <- app_assoc|].
      cbn [map]. now rewrite Hh.
    + rewrite (scan_plain _ _ _ _ _ _ _ _ _ B).
      apply IH, line_nonempty.
Qed.

End Headings.

(** On an accepting container the chapters follow the qualifying
    headings of the body: one chapter for each of them, in order, with
    the title and the depth of its heading, preceded by one untitled
    chapter of depth 1 exactly when the body starts with a line that is
    no boundary. *)
Theorem chapters_follow_headings respond (book : Epub) (fp : FileProvider)
        (maxDepth : Z) (f : ReadCloser) (env : list ascii) :
  (forall bk c, respond bk c = None) ->
  OpenFile fp (str "book.html") = Ok f ->
  Envelope (ReadLines f) = Some env ->
  exists new,
    chapters (fst (addChaptersToBook respond book fp maxDepth))
    = chapters book ++ new
    /\ map chapter_heading new
       = match body_lines (ReadLines f) with
         | [] => []
         | l :: _ => if is_boundary maxDepth l then [] else [([], 1%Z)]
         end
         ++ map heading_of
                (filter (is_boundary maxDepth) (body_lines (ReadLines f))).
Proof.
  intros Ha Hf He. rewrite (addChaptersToBook_scan _ _ _ _ _ _ Hf He).
  destruct (body_lines (ReadLines f)) as [|l ls].
  - exists []. cbn. now rewrite app_nil_r.
  - cbn [filter]. destruct (is_boundary maxDepth l) eqn:B.
    + rewrite (scan_boundary _ _ _ _ _ _ _ _ _ B), flush_empty.
      apply (scan_headings respond Ha), line_nonempty.
    + rewrite (scan_plain _ _ _ _ _ _ _ _ _ B).
      apply (scan_headings respond Ha), line_nonempty.
Qed.

(** ** Archive lookup and asset collection *)

(** A requested path that holds a capital letter is found in no
    archive. *)
Theorem zip_open_capital_request_fails (zs : ZipSource) (path : list ascii) :
  ToLower path <> path ->
  ZipSource_OpenFile zs path = Err ErrNotExist.
Proof. apply ZipSource_find_capital. Qed.

(** A requested path without capital letters opens the first entry, in
    central-directory order, whose name equals it up to letter case. *)
Theorem zip_open_finds_first_match {strs : Strings} (zs : ZipSource)
        (path : list ascii)
        (before : list zipFile) (f : zipFile) (after : list zipFile) :
  ToLower path = path ->
  File zs = before ++ f :: after ->
  Forall (fun g => ToLower (Name g) <> ToLower path) before ->
  ToLower (Name f) = ToLower path ->
  ZipSource_OpenFile zs path = Open f.
Proof. intros. now apply (ZipSource_find_lower _ _ before f after). Qed.

(** A requested path that no lower-cased entry name equals is not
    found. *)
Theorem zip_open_not_found {strs : Strings} (zs : ZipSource)
        (path : list ascii) :
  Forall (fun g => ToLower (Name g) <> path) (File zs) ->
  ZipSource_OpenFile zs path = Err ErrNotExist.
Proof.
  unfold ZipSource_OpenFile. induction 1 as [|g files Hg _ IH]; simpl.
  - reflexivity.
  - destruct (bytes_eqb (ToLower (Name g)) path) eqn:E; [|exact IH].
    apply bytes_eqb_eq in E. contradiction.
Qed.

Lemma ZipSource_find_self {strs : Strings} (files : list zipFile)
      (f : zipFile) :
  NoDup (map (fun g => ToLower (Name g)) files) ->
  In f files ->
  ToLower (Name f) = Name f ->
  ZipSource_find files (Name f) = Open f.
Proof.
  intros Hnd Hin Hf. induction files as [|g files IH]; [destruct Hin|].
  cbn [map] in Hnd. inversion Hnd as [|? ? Hnotin Hnd']; subst.
  cbn [ZipSource_find].
  destruct (bytes_eqb (ToLower (Name g)) (Name f)) eqn:E.
  - apply bytes_eqb_eq in E. destruct Hin as [-> | Hin]; [reflexivity|].
    exfalso. apply Hnotin. rewrite E, <- Hf.
    now apply (in_map (fun g => ToLower (Name g))).
  - destruct Hin as [-> | Hin]; [|now apply IH].
    rewrite Hf, bytes_eqb_refl in E. discriminate E.
Qed.

Section ZipAssets.

Context {strs : Strings}.
Variable respond : Epub -> call -> option error.
Hypothesis accepts : forall book c, respond book c = None.
Variable zs : ZipSource.
Hypothesis distinct : NoDup (map (fun g => ToLower (Name g)) (File zs)).
Hypothesis plain_and_readable :
  Forall (fun g => not_reserved (Name g) = true ->
                   ToLower (Name g) = Name g
                   /\ exists rc data, Open g = Ok rc /\ ReadAll rc = Ok data)
         (File zs).

Lemma zip_each_collects (files : list zipFile) :
  incl files (File zs) ->
  forall book,
  exists new,
    ZipSource_each (addFiles_traverse respond (ZipProvider zs)) files book
    = (book ++ map (fun a => AddFileCall (fst a) (snd a)) new, None)
    /\ Forall2 (fun g a => fst a = Name g
                           /\ exists rc, Open g = Ok rc
                                         /\ ReadAll rc = Ok (snd a))
               (filter (fun g => not_reserved (Name g)) files) new.
Proof.
  induction files as [|g files IH]; intros Hincl book.
  - exists []. cbn. rewrite app_nil_r. split; [reflexivity | constructor].
  - assert (Hg : In g (File zs)) by (apply Hincl; now left).
    assert (Hincl' : incl files (File zs))
      by (intros x Hx; apply Hincl; now right).
    cbn [ZipSource_each filter]. unfold addFiles_traverse at 1.
    unfold not_reserved at 1.
    destruct (is_reserved (ToLower (Name g))) eqn:R; cbn [negb].
    + apply (IH Hincl').
    + rewrite Forall_forall in plain_and_readable.
      destruct (plain_and_readable g Hg) as [Hl (rc & data & Ho & Hr)].
      { unfold not_reserved. now rewrite R. }
      cbn [OpenFile ZipProvider]. unfold ZipSource_OpenFile.
      rewrite (ZipSource_find_self _ _ distinct Hg Hl), Ho, Hr.
      unfold AddFile. rewrite accepts.
      destruct (IH Hincl' (book ++ [AddFileCall (Name g) data]))
        as (new & -> & Hall).
      exists ((Name g, data) :: new). split.
      * cbn [map fst snd]. now rewrite <- app_assoc.
      * constructor; [|exact Hall]. split; [reflexivity|]. now exists rc.
Qed.

(** On an archive whose lower-cased entry names are distinct and whose
    unreserved entries have names without capital letters and can be
    opened and read, asset collection on an accepting container returns
    no error and registers, for each unreserved entry in
    central-directory order, its name with its own bytes, and nothing
    else. *)
Theorem zip_assets_collected (book : Epub) :
  exists new,
    addFilesToBook respond book (ZipProvider zs)
    = (book ++ map (fun a => AddFileCall (fst a) (snd a)) new, None)
    /\ Forall2 (fun g a => fst a = Name g
                           /\ exists rc, Open g = Ok rc
                                         /\ ReadAll rc = Ok (snd a))
               (filter (fun g => not_reserved (Name g)) (File zs)) new.
Proof.
  unfold addFilesToBook. cbn [Traverse ZipProvider].
  unfold ZipSource_Traverse. apply zip_each_collects, incl_refl.
Qed.

End ZipAssets.

(** Asset collection makes no call on the book other than [AddFile]. *)
Lemma addFilesToBook_appends {strs : Strings} respond (fp : FileProvider)
      (names : list (list ascii)) (werr : option error) (book : Epub) :
  traverses fp names werr ->
  exists cs,
    fst (addFilesToBook respond book fp) = book ++ cs
    /\ forallb is_file_call cs = true.
Proof.
  intros Hv. unfold addFilesToBook. rewrite Hv. clear Hv.
  assert (E : fst (match visit (addFiles_traverse respond fp) names book with
                   | (st', None) => (st', werr)
                   | (st', Some e) => (st', Some e)
                   end)
              = fst (visit (addFiles_traverse respond fp) names book))
    by now destruct (visit _ names book) as [st' [e|]].
  rewrite E. clear E. revert book.
  induction names as [|n names IH]; intros book.
  - exists []. now rewrite app_nil_r.
  - cbn [visit].
    destruct (addFiles_traverse_cases respond fp n book)
      as [[_ ->] | [[_ [e ->]] | [_ (rc & data & _ & _ & ->)]]].
    + apply IH.
    + exists []. now rewrite app_nil_r.
    + unfold AddFile. destruct (respond book _) as [e|].
      * now exists [AddFileCall n data].
      * destruct (IH (book ++ [AddFileCall n data])) as (cs & -> & Hcs).
        exists (AddFileCall n data :: cs). now rewrite <- app_assoc.
Qed.

(** ** Directory traversal *)

(** When the walk of the directory meets an error, the entries before it
    have been handed to the callback, directories left out, and the walk
    error is returned unless the callback failed first; no later entry is
    visited. *)
Theorem folder_traverse_stops_at_walk_error (os : OS) (fs : FolderSource)
        (S : Type) (traverseFn : TraverseFunc S) (st : S)
        (pre : list WalkItem) (it : WalkItem) (post : list WalkItem)
        (e : error) :
  os_Walk os (base fs) = pre ++ it :: post ->
  Forall (fun i => wi_err i = None) pre ->
  wi_err it = Some e ->
  FolderSource_Traverse os fs S traverseFn st
  = match visit traverseFn (folder_entries os fs pre) st with
    | (st', None) => (st', Some e)
    | (st', Some e') => (st', Some e')
    end.
Proof.
  intros Hw Hpre Hit. unfold FolderSource_Traverse. rewrite Hw. clear Hw.
  revert st. induction Hpre as [|i pre Hi _ IH]; intros st.
  - cbn. now rewrite Hit.
  - cbn [app walk_items]. rewrite Hi. unfold folder_entries.
    cbn [filter]. destruct (wi_isDir i); cbn [negb map visit]; [apply IH|].
    destruct (traverseFn _ st) as [st' [e'|]]; [reflexivity | apply IH].
Qed.

(** ** The pipeline *)

Lemma chapters_of_calls (cs : list call) :
  forallb is_file_call cs = true -> chapters cs = [].
Proof.
  induction cs as [|c cs IH]; [reflexivity|]. cbn [forallb].
  intros H. apply andb_true_iff in H. destruct H as [Hc H].
  destruct c; try discriminate Hc. cbn. now apply IH.
Qed.

(** [setCoverPage] registers at most one cover page, named cover.html,
    and makes no other call. *)
Lemma setCoverPage_appends (book : Epub) (fp : FileProvider) :
  exists cs e,
    setCoverPage book fp = (book ++ cs, e)
    /\ (cs = [] \/ exists data,
           cs = [SetCoverPageCall (str "cover.html") data]).
Proof.
  rewrite setCoverPage_outcomes.
  destruct (OpenFile fp (str "cover.html")) as [f|e].
  - destruct (ReadAll f) as [data|e].
    + exists [SetCoverPageCall (str "cover.html") data], None.
      split; [reflexivity | right; now exists data].
    + exists [], None. rewrite app_nil_r. split; [reflexivity | now left].
  - exists [], (Some e). rewrite app_nil_r. split; [reflexivity | now left].
Qed.

Section Pipeline.

Context {strs : Strings}.
Variable respond : Epub -> call -> option error.
Variable Config : Type.
Variable ParseIni : ReadCloser -> result Config.
Variable GetString : Config -> list ascii -> list ascii -> list ascii.
Variable GetInt : Config -> list ascii -> Z -> Z.
Variable NewEpub : list ascii -> result Epub.
Variable MaxDepth : Z.
Variable Args : list (list ascii).
Variable fp : FileProvider.
Variable names : list (list ascii).
Variable werr : option error.
Hypothesis enumerates : traverses fp names werr.

(** The calls made on the book come in the order of the stages: name and
    author, at most one cover page, the supporting files, the chapters,
    and at most one [Save], which is the last call; when [Save] is
    called its answer is the result of the pipeline.  The chapters have a
    depth between 1 and 6 that does not exceed the depth supported by the
    container, or is 1 when that is below 1. *)
Theorem pipeline_call_order (book : Epub) (r : option error) :
  generateBook respond Config ParseIni GetString GetInt NewEpub MaxDepth
               Args fp = (Some book, r) ->
  exists cfg init cs fs chs sv,
    loadConfig Config ParseIni fp = Ok cfg
    /\ NewEpub (GetString cfg (str "/book/id") []) = Ok init
    /\ book = (init ++ [SetNameCall (GetString cfg (str "/book/name") []);
                        SetAuthorCall (GetString cfg (str "/book/author") [])])
              ++ cs ++ fs ++ chs ++ sv
    /\ (cs = [] \/ exists data, cs = [SetCoverPageCall (str "cover.html") data])
    /\ forallb is_file_call fs = true
    /\ forallb is_chapter_call chs = true
    /\ Forall (fun c => (1 <= ch_depth c <= 6)%Z
                        /\ (ch_depth c <= Z.max 1 MaxDepth)%Z) (chapters chs)
    /\ (sv = []
        \/ exists p, p <> [] /\ sv = [SaveCall p]
                     /\ r = respond (removelast book) (SaveCall p)).
Proof.
  unfold generateBook.
  destruct (loadConfig Config ParseIni fp) as [cfg|e0] eqn:Hcfg; [|discriminate].
  destruct (NewEpub (GetString cfg (str "/book/id") [])) as [init|e0] eqn:Hnew;
    [|discriminate].
  unfold SetName, SetAuthor. rewrite <- app_assoc. cbn [app].
  set (b1 := init ++ [SetNameCall (GetString cfg (str "/book/name") []);
                      SetAuthorCall (GetString cfg (str "/book/author") [])]).
  intros H. exists cfg, init.
  (* the cover page *)
  destruct (setCoverPage_appends b1 fp) as (cs & e1 & Ec & Hcs).
  rewrite Ec in H. exists cs.
  destruct e1 as [e1|].
  { injection H as <- <-. exists [], [], [].
    rewrite !app_nil_r. repeat split; auto. }
  (* the supporting files *)
  destruct (addFilesToBook_appends respond fp names werr (b1 ++ cs)
                                   enumerates)
    as (fs & Ef & Hfs).
  destruct (addFilesToBook respond (b1 ++ cs) fp) as [b3 e2].
  cbn [fst] in Ef. subst b3. exists fs.
  destruct e2 as [e2|].
  { injection H as <- <-. exists [], [].
    rewrite !app_nil_r, <- app_assoc. repeat split; auto. }
  (* the chapters *)
  set (d := if ((GetInt cfg (str "/book/depth") 1 <? 1)
                || (MaxDepth <? GetInt cfg (str "/book/depth") 1))%Z
            then 1%Z else GetInt cfg (str "/book/depth") 1) in H.
  assert (Hd : (Z.max 1 d <= Z.max 1 MaxDepth)%Z).
  { unfold d. destruct (GetInt cfg (str "/book/depth") 1 <? 1)%Z eqn:E1;
      cbn [orb]; [lia|].
    destruct (MaxDepth <? GetInt cfg (str "/book/depth") 1)%Z eqn:E2; [lia|].
    apply Z.ltb_ge in E1, E2. lia. }
  destruct (addChaptersToBook_calls respond ((b1 ++ cs) ++ fs) fp d)
    as (chs & Eh & Hchs & Hbound).
  destruct (addChaptersToBook respond ((b1 ++ cs) ++ fs) fp d) as [b4 e3].
  cbn [fst] in Eh. subst b4. exists chs.
  assert (Hdepth : Forall (fun c => (1 <= ch_depth c <= 6)%Z
                                    /\ (ch_depth c <= Z.max 1 MaxDepth)%Z)
                          (chapters chs)).
  { eapply Forall_impl; [|exact Hbound]. cbn. intros c [? ?]. split; lia. }
  destruct e3 as [e3|].
  { injection H as <- <-. exists [].
    rewrite !app_nil_r. repeat split; auto.
    unfold b1. now rewrite <- !app_assoc. }
  (* saving *)
  set (s := if (3 <=? length Args)%nat then nth 2 Args []
            else GetString cfg (str "/output/path") []) in H.
  destruct (length s =? 0)%nat eqn:Es.
  { injection H as <- <-. exists [].
    rewrite !app_nil_r. repeat split; auto.
    unfold b1. now rewrite <- !app_assoc. }
  unfold Save in H.
  assert (H' : (((b1 ++ cs) ++ fs) ++ chs) ++ [SaveCall s] = book
               /\ respond (((b1 ++ cs) ++ fs) ++ chs) (SaveCall s) = r).
  { destruct (respond (((b1 ++ cs) ++ fs) ++ chs) (SaveCall s));
      injection H as <- <-; now split. }
  destruct H' as [<- <-]. exists [SaveCall s].
  rewrite removelast_last. repeat split; auto.
  - unfold b1. now rewrite <- !app_assoc.
  - right. exists s. repeat split. intros ->. discriminate Es.
Qed.

End Pipeline.

(** ** Instances of the further properties *)

(** The body-open line of the scenario document. *)
Lemma body_open_line_is_no_heading_witness :
  checkNewChapter (str "<body>") = (0%Z, []).
Proof. apply body_open_line_is_no_heading. reflexivity. Defined.


(** Two blanks in front of a heading and a tab behind it. *)
Lemma checkNewChapter_ignores_outer_blanks_witness :
  checkNewChapter (str "  " ++ str "<h1>A</h1>" ++ [tab])
  = checkNewChapter (str "<h1>A</h1>").
Proof.
  apply checkNewChapter_ignores_outer_blanks; repeat constructor.
Defined.

(** The scenario document is its Envelope followed by its body. *)
Lemma envelope_and_body_partition_witness :
  text (map str ["<html>"; "<body>"]%string)
       ++ text (body_lines (map str scenario_doc))
  = text (map str scenario_doc).
Proof.
  exact (proj1 (envelope_and_body_partition
                  (map str scenario_doc)
                  (text (map str ["<html>"; "<body>"]%string)) eq_refl)).
Defined.

(** The headings of the scenario document under depth limit 2. *)
Lemma chapters_follow_headings_witness :
  exists new,
    chapters (fst (addChaptersToBook accept_all [] (book_zip scenario_doc) 2))
    = chapters [] ++ new
    /\ map chapter_heading new
       = [(str "A", 1%Z); (str "A.1", 2%Z); (str "B", 1%Z)].
Proof.
  destruct (chapters_follow_headings
              accept_all [] (book_zip scenario_doc) 2
              (file_of_lines scenario_doc)
              (text (map str ["<html>"; "<body>"]%string)))
    as (new & Hn & Hh).
  - intros bk c. reflexivity.
  - reflexivity.
  - reflexivity.
  - exists new. split; [exact Hn | exact Hh].
Defined.

(** The chapters of the scenario document after the first one. *)
Lemma later_chapters_enveloped_witness :
  exists new,
    chapters (fst (addChaptersToBook accept_all [] (book_zip scenario_doc) 2))
    = chapters [] ++ new
    /\ Forall (fun c =>
                 begins_with (text (map str ["<html>"; "<body>"]%string))
                             (ch_content c) = true) (tl new).
Proof.
  apply (later_chapters_enveloped accept_all [] (book_zip scenario_doc) 2
                                  (file_of_lines scenario_doc)).
  - reflexivity.
  - reflexivity.
Defined.

(** The scenario document starts its body with a heading. *)
Lemma heading_first_all_enveloped_witness :
  exists new,
    chapters (fst (addChaptersToBook accept_all [] (book_zip scenario_doc) 2))
    = chapters [] ++ new
    /\ Forall (enveloped (text (map str ["<html>"; "<body>"]%string))) new.
Proof.
  apply (heading_first_all_enveloped
           accept_all [] (book_zip scenario_doc) 2
           (file_of_lines scenario_doc) _ (str "<h1>A</h1>")
           (map str ["p1"; "<h2>A.1</h2>"; "p2"; "<h1>B</h1>"; "p3"]%string)).
  - reflexivity.
  - reflexivity.
  - reflexivity.
  - reflexivity.
Defined.

(** The body lines of the scenario document are kept. *)
Lemma body_lines_kept_witness :
  exists new segs,
    snd (addChaptersToBook accept_all [] (book_zip scenario_doc) 2) = None
    /\ chapters (fst (addChaptersToBook accept_all []
                                        (book_zip scenario_doc) 2))
       = chapters [] ++ new
    /\ Forall2 (wraps (text (map str ["<html>"; "<body>"]%string))) new segs
    /\ concat segs = text (body_lines (ReadLines (file_of_lines scenario_doc))).
Proof.
  apply (body_lines_kept accept_all [] (book_zip scenario_doc) 2
                         (file_of_lines scenario_doc)).
  - intros bk c. reflexivity.
  - reflexivity.
  - reflexivity.
Defined.

(** A body of two paragraphs, on a container that refuses chapters. *)
Lemma body_without_boundary_is_one_chapter_witness :
  addChaptersToBook refuse_chapters [] (book_zip plain_doc) 3
  = ([AddChapterCall [] (text (map str ["p"; "q"]%string)) 1], None).
Proof.
  apply (body_without_boundary_is_one_chapter
           refuse_chapters [] (book_zip plain_doc) 3
           (file_of_lines plain_doc) (text [str "<body>"])).
  - reflexivity.
  - reflexivity.
  - repeat constructor.
Defined.

(** Two chapters on an accepting container: the first ends with the
    closing tags, the second does not. *)
Lemma only_last_chapter_lacks_footer_witness :
  exists c1 c2,
    chapters (fst (addChaptersToBook accept_all [] (book_zip two_chapter_doc)
                                     1))
    = [c1; c2]
    /\ (exists x, ch_content c1 = x ++ footer)
    /\ (forall y, ch_content c2 <> y ++ footer).
Proof.
  destruct (only_last_chapter_lacks_footer
              accept_all [] (book_zip two_chapter_doc) 1)
    as (mids & final & Hc & Hm & [[-> Hn] | (c & x & -> & _ & Hnf & _)]).
  - rewrite (Hn eq_refl) in Hc. vm_compute in Hc. discriminate Hc.
  - destruct mids as [|c1 [|c1' mids]];
      [vm_compute in Hc; discriminate Hc | | ].
    + exists c1, c. split; [exact Hc|]. split; [|exact Hnf].
      now inversion Hm.
    + exfalso. vm_compute in Hc. injection Hc as _ _ Hc.
      destruct mids; discriminate Hc.
Defined.

(** The first of two chapters is refused. *)
Lemma segmenter_error_is_last_answer_witness :
  fst (addChaptersToBook refuse_chapters [] (book_zip two_chapter_doc) 1) = []
  \/ exists cs c,
      fst (addChaptersToBook refuse_chapters [] (book_zip two_chapter_doc) 1)
      = [] ++ cs ++ [c]
      /\ is_chapter_call c = true
      /\ refuse_chapters ([] ++ cs) c = Some (ErrOther "chapter refused").
Proof.
  apply (segmenter_error_is_last_answer
           refuse_chapters [] (book_zip two_chapter_doc) 1).
  reflexivity.
Defined.

(** A request with a capital letter. *)
Lemma zip_open_capital_request_fails_witness :
  ZipSource_OpenFile mixed_zip (str "Book.html") = Err ErrNotExist.
Proof.
  apply zip_open_capital_request_fails. vm_compute. discriminate.
Defined.

(** The cover page of an archive that stores it in capitals. *)
Lemma zip_open_finds_first_match_witness :
  ZipSource_OpenFile mixed_zip (str "cover.html")
  = Ok (file_of_lines ["cover"]%string).
Proof.
  apply (zip_open_finds_first_match
           mixed_zip (str "cover.html")
           [zip_entry "book.ini" (file_of_lines [])]
           (zip_entry "COVER.HTML" (file_of_lines ["cover"]%string))
           [zip_entry "style.css" (file_of_lines ["p {}"]%string);
            zip_entry "Book.html" (file_of_lines ["<body>"]%string)]).
  - reflexivity.
  - reflexivity.
  - repeat constructor. vm_compute. discriminate.
  - reflexivity.
Defined.

(** A path that is in the archive under no letter case. *)
Lemma zip_open_not_found_witness :
  ZipSource_OpenFile mixed_zip (str "missing.txt") = Err ErrNotExist.
Proof.
  apply zip_open_not_found.
  repeat constructor; vm_compute; discriminate.
Defined.

(** The style sheet of a complete archive. *)
Lemma zip_assets_collected_witness :
  exists new,
    addFilesToBook accept_all [] (ZipProvider full_zip)
    = ([] ++ map (fun a => AddFileCall (fst a) (snd a)) new, None)
    /\ Forall2 (fun g a => fst a = Name g
                           /\ exists rc, Open g = Ok rc
                                         /\ ReadAll rc = Ok (snd a))
               (filter (fun g => not_reserved (Name g)) (File full_zip)) new.
Proof.
  apply (zip_assets_collected accept_all (fun _ _ => eq_refl) full_zip).
  - vm_compute.
    repeat (constructor; [intros H; repeat destruct H as [H|H];
                          try discriminate H; exact H|]).
    constructor.
  - repeat apply Forall_cons; try apply Forall_nil; intros H;
      first [ vm_compute in H; discriminate H
            | split; [reflexivity | do 2 eexists; split; reflexivity] ].
Defined.

(** A directory with one file. *)
Lemma FolderProvider_visits_witness :
  visits (FolderProvider style_os (NewFolderSource (str "root/")))
         [str "style.css"].
Proof.
  apply (FolderProvider_visits style_os (NewFolderSource (str "root/"))).
  repeat constructor.
Defined.

(** A walk that fails at its third item. *)
Lemma folder_traverse_stops_at_walk_error_witness :
  FolderSource_Traverse broken_os (NewFolderSource (str "root/")) _
                        record_path []
  = ([str "a.css"], Some (ErrOther "permission denied")).
Proof.
  apply (folder_traverse_stops_at_walk_error
           broken_os (NewFolderSource (str "root/")) _ record_path []
           [ {| wi_path := str "root/"; wi_isDir := true; wi_err := None |};
             {| wi_path := str "root/a.css"; wi_isDir := false;
                wi_err := None |} ]
           {| wi_path := str "root/sub"; wi_isDir := true;
              wi_err := Some (ErrOther "permission denied") |}
           [ {| wi_path := str "root/z.css"; wi_isDir := false;
                wi_err := None |} ]).
  - reflexivity.
  - repeat constructor.
  - reflexivity.
Defined.

(** The pipeline on a complete archive. *)
Lemma pipeline_call_order_witness :
  exists init cs fs chs sv,
    fst (run_pipeline accept_all (ZipProvider full_zip))
    = Some ((init ++ [SetNameCall []; SetAuthorCall []])
            ++ cs ++ fs ++ chs ++ sv)
    /\ forallb is_file_call fs = true
    /\ forallb is_chapter_call chs = true
    /\ Forall (fun c => (1 <= ch_depth c <= 6)%Z) (chapters chs).
Proof.
  destruct (pipeline_call_order
              (strs := ascii_strings)
              accept_all unit (fun _ => Ok tt) (fun _ _ d => d)
              (fun _ _ d => d) (fun _ => Ok []) 6
              (map str ["makeepub"; "src.zip"; "out.epub"]%string)
              (ZipProvider full_zip) (map Name (File full_zip)) None
              (ZipProvider_traverses full_zip)
              (match fst (run_pipeline accept_all (ZipProvider full_zip)) with
               | Some b => b
               | None => []
               end)
              None)
    as (cfg & init & cs & fs & chs & sv & _ & _ & Hb & _ & Hf & Hch & Hd & _);
    [vm_compute; reflexivity|].
  exists init, cs, fs, chs, sv.
  split; [now rewrite <- Hb|]. split; [exact Hf|]. split; [exact Hch|].
  eapply Forall_impl; [|exact Hd]. now intros c [H _].
Defined.
